(** * Detection / track association and per-class counting

    A shallow embedding of the association layer of the YOLOv7 + ByteTrack
    notebook [Self_ChickOut_Vision.ipynb]: the [Detections] container with
    its two filter modes and its iterator, [match_detections_with_tracks],
    and the counting part of [process_frame].

    Numbers.  The notebook computes on NumPy floats.  Coordinates,
    confidences and IoU values are modelled as exact rationals ([Q]), so
    rounding, infinities and NaN are outside this model.  Class ids and
    track ids are integers ([Z]).

    Errors.  A Python exception is an explicit [Raise] result. *)

From Stdlib Require Import QArith Qminmax Lia Lqa Sorted.
From stdpp Require Import base option list strings gmap.

Local Open Scope Q_scope.

(** ** Exceptions as results *)

Inductive exn : Type :=
| AttributeError
| IndexError
| KeyError
| ValueError.

Inductive result (A : Type) : Type :=
| Ok (a : A)
| Raise (e : exn).
Arguments Ok {A} a.
Arguments Raise {A} e.

Definition rbind {A B : Type} (r : result A) (k : A -> result B) : result B :=
  match r with
  | Ok a => k a
  | Raise e => Raise e
  end.

Notation "x <- e ;; k" := (rbind e (fun x => k))
  (at level 100, e at next level, k at level 200, right associativity,
   format "x  <-  e  ;;  '/' k").

(** ** Boxes *)

Record Box : Type := mkBox { bx1 : Q; by1 : Q; bx2 : Q; by2 : Q }.

(** The box invariant of the data model: x1 < x2 and y1 < y2. *)
Definition valid_box (b : Box) : Prop := bx1 b < bx2 b /\ by1 b < by2 b.

Definition box_area (b : Box) : Q := (bx2 b - bx1 b) * (by2 b - by1 b).

(** Two boxes do not overlap when they are separated along one axis. *)
Definition disjoint_boxes (a b : Box) : Prop :=
  bx2 a <= bx1 b \/ bx2 b <= bx1 a \/ by2 a <= by1 b \/ by2 b <= by1 a.

Module IoU.

(** Modelled from the spec: [box_iou_batch] is imported from the external
    [onemetric] package and its body is not part of the notebook.  The
    pairwise value follows section 4.1: intersection area
    max(0, min(x2a,x2b)-max(x1a,x1b)) * max(0, min(y2a,y2b)-max(y1a,y1b)),
    union area = area(A)+area(B)-intersection, IoU = intersection/union,
    and 0 when the union is 0. *)
Definition intersection (a b : Box) : Q :=
  Qmax 0 (Qmin (bx2 a) (bx2 b) - Qmax (bx1 a) (bx1 b)) *
  Qmax 0 (Qmin (by2 a) (by2 b) - Qmax (by1 a) (by1 b)).

Definition union (a b : Box) : Q := box_area a + box_area b - intersection a b.

Definition box_iou (a b : Box) : Q :=
  if Qeq_bool (union a b) 0 then 0 else intersection a b / union a b.

(** The batch form: one row per box of the first collection, one column
    per box of the second. *)
Definition box_iou_batch (boxes_true boxes_detection : list Box) : list (list Q) :=
  map (fun t => map (box_iou t) boxes_detection) boxes_true.

End IoU.

(** ** NumPy and Python primitives used by the notebook *)

Module Np.

(** [arr[mask]] with a boolean mask: the mask must be as long as the
    array, otherwise NumPy raises [IndexError]; the selected entries keep
    their order. *)
Fixpoint mask_select {A : Type} (arr : list A) (mask : list bool) : result (list A) :=
  match arr, mask with
  | [], [] => Ok []
  | x :: arr', m :: mask' =>
      rest <- mask_select arr' mask' ;;
      Ok (if m then x :: rest else rest)
  | _, _ => Raise IndexError
  end.

(** Truth value of a number: nonzero. *)
Definition truthy (q : Q) : bool := negb (Qeq_bool q 0).

Definition box_coords (b : Box) : list Q := [bx1 b; by1 b; bx2 b; by2 b].

(** [np.any] over an N x 4 array of boxes. *)
Definition any (boxes : list Box) : bool :=
  existsb (fun b => existsb truthy (box_coords b)) boxes.

(** Scan of [np.argmax]: the running best index and value; a later entry
    replaces the best one only when it is strictly greater, so the first
    maximum wins. *)
Fixpoint argmax_from (best_i : nat) (best : Q) (i : nat) (l : list Q) : nat :=
  match l with
  | [] => best_i
  | x :: l' =>
      if Qle_bool x best
      then argmax_from best_i best (S i) l'
      else argmax_from i x (S i) l'
  end.

(** [np.argmax] of one row; an empty sequence raises [ValueError]. *)
Definition argmax (row : list Q) : result nat :=
  match row with
  | [] => Raise ValueError
  | x :: l => Ok (argmax_from 0%nat x 1%nat l)
  end.

Fixpoint mapM {A B : Type} (f : A -> result B) (l : list A) : result (list B) :=
  match l with
  | [] => Ok []
  | x :: l' => y <- f x ;; ys <- mapM f l' ;; Ok (y :: ys)
  end.

(** [np.argmax(iou, axis=1)]: one column index per row. *)
Definition argmax_axis1 (m : list (list Q)) : result (list nat) := mapM argmax m.

End Np.

Module Py.

(** [l[i]] for reading. *)
Definition getitem {A : Type} (l : list A) (i : nat) : result A :=
  match l !! i with
  | Some x => Ok x
  | None => Raise IndexError
  end.

(** [l[i] = x]: Python raises [IndexError] out of range. *)
Definition setitem {A : Type} (l : list A) (i : nat) (x : A) : result (list A) :=
  if (i <? length l)%nat then Ok (<[i := x]> l) else Raise IndexError.

(** [enumerate(l)]. *)
Definition enumerate {A : Type} (l : list A) : list (nat * A) :=
  zip (seq 0 (length l)) l.

(** A [for] loop threading a state through a body that may raise. *)
Fixpoint for_each {S A : Type} (body : S -> A -> result S) (l : list A) (s : S) : result S :=
  match l with
  | [] => Ok s
  | x :: l' => s' <- body s x ;; for_each body l' s'
  end.

(** A [dict] with string keys, in insertion order. *)
Definition dict (V : Type) : Type := list (string * V).

Fixpoint dict_get {V : Type} (d : dict V) (k : string) (default : V) : V :=
  match d with
  | [] => default
  | (k', v) :: d' => if String.eqb k' k then v else dict_get d' k default
  end.

(** [d[k] = v]: an existing key keeps its position, a new key goes last. *)
Fixpoint dict_set {V : Type} (d : dict V) (k : string) (v : V) : dict V :=
  match d with
  | [] => [(k, v)]
  | (k', v') :: d' =>
      if String.eqb k' k then (k', v) :: d' else (k', v') :: dict_set d' k v
  end.

End Py.

(** ** The [Detections] class *)

Record Detections : Type := mkDetections {
  xyxy : list Box;
  confidence : list Q;
  class_id : list Z;
  tracker_id : option (list (option Z))
}.

(** [Detections.__init__]: [tracker_id] starts as [None]. *)
Definition Detections_init (xyxy : list Box) (confidence : list Q) (class_id : list Z)
  : Detections :=
  mkDetections xyxy confidence class_id None.

Definition set_xyxy (self : Detections) (v : list Box) : Detections :=
  mkDetections v (confidence self) (class_id self) (tracker_id self).
Definition set_confidence (self : Detections) (v : list Q) : Detections :=
  mkDetections (xyxy self) v (class_id self) (tracker_id self).
Definition set_class_id (self : Detections) (v : list Z) : Detections :=
  mkDetections (xyxy self) (confidence self) v (tracker_id self).
Definition set_tracker_id (self : Detections) (v : option (list (option Z))) : Detections :=
  mkDetections (xyxy self) (confidence self) (class_id self) v.

(** The in-place branch of [Detections.filter]: the fields are replaced one
    after the other, so the object returned next to a [Raise] is the
    partially updated one. *)
Definition filter_inplace (self : Detections) (mask : list bool)
  : Detections * result unit :=
  match Np.mask_select (xyxy self) mask with
  | Raise e => (self, Raise e)
  | Ok v1 =>
      let self := set_xyxy self v1 in
      match Np.mask_select (confidence self) mask with
      | Raise e => (self, Raise e)
      | Ok v2 =>
          let self := set_confidence self v2 in
          match Np.mask_select (class_id self) mask with
          | Raise e => (self, Raise e)
          | Ok v3 =>
              let self := set_class_id self v3 in
              match tracker_id self with
              | None => (self, Ok tt)
              | Some tid =>
                  match Np.mask_select tid mask with
                  | Raise e => (self, Raise e)
                  | Ok v4 => (set_tracker_id self (Some v4), Ok tt)
                  end
              end
          end
      end
  end.

(** The copy branch of [Detections.filter]: a new object built by the
    constructor from the three masked arrays. *)
Definition filter_copy (self : Detections) (mask : list bool) : result Detections :=
  v1 <- Np.mask_select (xyxy self) mask ;;
  v2 <- Np.mask_select (confidence self) mask ;;
  v3 <- Np.mask_select (class_id self) mask ;;
  Ok (Detections_init v1 v2 v3).

(** [Detections.filter(mask, inplace)]: the object after the call and what
    the call returns ([None] in place, the new object otherwise). *)
Definition Detections_filter (self : Detections) (mask : list bool) (inplace : bool)
  : Detections * result (option Detections) :=
  if inplace then
    let '(self', r) := filter_inplace self mask in
    (self', _ <- r ;; Ok None)
  else
    (self, d <- filter_copy self mask ;; Ok (Some d)).

Definition zip4 {A B C D : Type} (a : list A) (b : list B) (c : list C) (d : list D)
  : list (A * B * C * D) :=
  zip (zip (zip a b) c) d.

(** [Detections.__iter__], as the sequence of tuples it yields.
    [self.tracker_id.size] on [None] raises [AttributeError]. *)
Definition Detections_iter (self : Detections) : result (list (Box * Q * Z * option Z)) :=
  match tracker_id self with
  | None => Raise AttributeError
  | Some tid =>
      Ok (zip4 (xyxy self) (confidence self) (class_id self)
               (if (0 <? length tid)%nat then tid
                else replicate (length (xyxy self)) None))
  end.

(** ** Tracks and the track associator *)

(** What the notebook reads of a ByteTrack [STrack]: its box and its id. *)
Record STrack : Type := mkSTrack { tlbr : Box; track_id : Z }.

(** [detections2boxes]: [np.hstack] of the boxes and the confidence
    column; the two arrays must have the same number of rows. *)
Definition detections2boxes (detections : Detections) : result (list (Box * Q)) :=
  if (length (xyxy detections) =? length (confidence detections))%nat
  then Ok (zip (xyxy detections) (confidence detections))
  else Raise ValueError.

Definition tracks2boxes (tracks : list STrack) : list Box := map tlbr tracks.

(** [iou[tracker_index, detection_index]]. *)
Definition iou_at (iou : list (list Q)) (tracker_index detection_index : nat) : result Q :=
  row <- Py.getitem iou tracker_index ;;
  Py.getitem row detection_index.

(** Body of the assignment loop of [match_detections_with_tracks]. *)
Definition assign_track (iou : list (list Q)) (tracks : list STrack)
    (tracker_ids : list (option Z)) (p : nat * nat) : result (list (option Z)) :=
  let '(tracker_index, detection_index) := p in
  v <- iou_at iou tracker_index detection_index ;;
  if Np.truthy v then
    t <- Py.getitem tracks tracker_index ;;
    Py.setitem tracker_ids detection_index (Some (track_id t))
  else Ok tracker_ids.

Definition match_detections_with_tracks (detections : Detections) (tracks : list STrack)
  : result (list (option Z)) :=
  if negb (Np.any (xyxy detections)) || (length tracks =? 0)%nat then
    Ok (replicate (length (xyxy detections)) None)
  else
    let tracks_boxes := tracks2boxes tracks in
    let iou := IoU.box_iou_batch tracks_boxes (xyxy detections) in
    track2detection <- Np.argmax_axis1 iou ;;
    let tracker_ids := replicate (length (xyxy detections)) None in
    Py.for_each (assign_track iou tracks) (Py.enumerate track2detection) tracker_ids.

(** ** The frame processor *)

(** One row of [pred[0]] after non-max suppression and [scale_coords]:
    four coordinates, the confidence and the class id. *)
Record RawDet : Type := mkRawDet { det_xyxy : Box; det_conf : Q; det_cls : Z }.

(** [CLASS_NAMES_DICT[class_id]]. *)
Definition class_name_of (names : gmap Z string) (c : Z) : result string :=
  match names !! c with
  | Some n => Ok n
  | None => Raise KeyError
  end.

(** Body of the annotation loop of [process_frame]: the counting state is
    [class_counts], [chicken_parts] and the labelled boxes drawn so far. *)
Definition count_detection (names : gmap Z string)
    (s : Py.dict nat * list string * list (Box * string * Q * option Z))
    (item : Box * Q * Z * option Z)
  : result (Py.dict nat * list string * list (Box * string * Q * option Z)) :=
  let '(class_counts, chicken_parts, drawn) := s in
  let '(xyxy, confidence, class_id, tracker_id) := item in
  class_name <- class_name_of names class_id ;;
  let class_counts :=
    Py.dict_set class_counts class_name (Py.dict_get class_counts class_name 0 + 1)%nat in
  let chicken_parts := chicken_parts ++ [class_name] in
  Ok (class_counts, chicken_parts, drawn ++ [(xyxy, class_name, confidence, tracker_id)]).

Section FrameProcessor.

(** The tracker collaborator: its state and its single operation
    [byte_tracker.update], from this frame's (box, confidence) rows to the
    current track list.  The frame shape passed along with the rows is the
    same for every call and is left out. *)
Variable TrackerState : Type.
Variable byte_tracker_update :
  TrackerState -> list (Box * Q) -> TrackerState * list STrack.

(** What a frame leaves behind: the two returned collections, the labelled
    boxes drawn on the frame, the tracker state, and the inputs of the
    calls made to the tracker during the frame. *)
Record FrameOutput : Type := mkFrameOutput {
  class_counts : Py.dict nat;
  chicken_parts : list string;
  drawn : list (Box * string * Q * option Z);
  tracker_state : TrackerState;
  tracker_calls : list (list (Box * Q))
}.

(** The class filter at the head of [process_frame]: build the
    [Detections] object from the rows and keep, in place, the detections
    whose class id is a key of the names dictionary. *)
Definition detections_of_interest (names : gmap Z string) (det : list RawDet)
  : Detections * result (option Detections) :=
  let CLASS_ID := elements (dom names) in
  let detections :=
    Detections_init (map det_xyxy det) (map det_conf det) (map det_cls det) in
  let mask := map (fun class_id => bool_decide (class_id ∈ CLASS_ID)) (class_id detections) in
  Detections_filter detections mask true.

Definition process_frame (names : gmap Z string) (st : TrackerState) (pred0 : list RawDet)
  : result FrameOutput :=
  if (0 <? length pred0)%nat then
    let '(detections, r) := detections_of_interest names pred0 in
    _ <- r ;;
    output_results <- detections2boxes detections ;;
    let '(st', tracks) := byte_tracker_update st output_results in
    tracker_id <- match_detections_with_tracks detections tracks ;;
    let detections := set_tracker_id detections (Some tracker_id) in
    items <- Detections_iter detections ;;
    s <- Py.for_each (count_detection names) items ([], [], []) ;;
    let '(class_counts, chicken_parts, drawn) := s in
    Ok (mkFrameOutput class_counts chicken_parts drawn st' [output_results])
  else
    Ok (mkFrameOutput [] [] [] st []).

End FrameProcessor.

Arguments class_counts {TrackerState} _.
Arguments chicken_parts {TrackerState} _.
Arguments drawn {TrackerState} _.
Arguments tracker_state {TrackerState} _.
Arguments tracker_calls {TrackerState} _.
Arguments mkFrameOutput {TrackerState} _ _ _ _ _.
Arguments process_frame {TrackerState} _ _ _ _.

(** ** The class names of the detector *)

(** The two shapes [model.names] can have when the detector is built. *)
Inductive ModelNames : Type :=
| NamesList (l : list string)
| NamesDict (d : gmap Z string).

(** [{i: name for i, name in enumerate(names)}]: the entries are inserted
    in list order. *)
Definition dict_of_enumerate (l : list string) : gmap Z string :=
  fold_left (fun m p => <[Z.of_nat (fst p) := snd p]> m) (Py.enumerate l) ∅.

(** The normalisation of [self.names] at the end of
    [ObjectDetector.__init__]: a list becomes a dictionary keyed by
    position, anything else is kept. *)
Definition normalize_names (names : ModelNames) : gmap Z string :=
  match names with
  | NamesList l => dict_of_enumerate l
  | NamesDict d => d
  end.

(** ** Vocabulary of the statements *)

(** A box whose four coordinates are zero. *)
Definition all_zero (b : Box) : Prop :=
  bx1 b == 0 /\ by1 b == 0 /\ bx2 b == 0 /\ by2 b == 0.

(** The row of the IoU matrix that belongs to track [t]. *)
Definition iou_row (detections : Detections) (t : STrack) : list Q :=
  map (IoU.box_iou (tlbr t)) (xyxy detections).

(** Column [j] holds the maximum of [row], and no earlier column reaches
    that value: the column [np.argmax] returns. *)
Definition best_column (row : list Q) (j : nat) : Prop :=
  exists v, row !! j = Some v /\
    (forall k w, row !! k = Some w -> w <= v) /\
    (forall k w, (k < j)%nat -> row !! k = Some w -> w < v).

(** The column [np.argmax] returns on a row; 0 stands for the empty row,
    which [Np.argmax] rejects. *)
Definition argmax_col (row : list Q) : nat :=
  match row with
  | [] => 0%nat
  | x :: l => Np.argmax_from 0%nat x 1%nat l
  end.

(** Track row [i] claims detection [j]: [j] is the best column of the row
    and the IoU there is strictly positive. *)
Definition claims (detections : Detections) (tracks : list STrack) (i j : nat) : Prop :=
  exists t v, tracks !! i = Some t /\
    best_column (iou_row detections t) j /\
    iou_row detections t !! j = Some v /\ 0 < v.

(** Loop invariant of the assignment loop after the first [n] track rows:
    slot [j] holds the id of the last row below [n] that claims [j], and
    [None] when no row below [n] claims it. *)
Definition assigned_upto (detections : Detections) (tracks : list STrack)
    (n : nat) (ids : list (option Z)) : Prop :=
  length ids = length (xyxy detections) /\
  forall j, (j < length (xyxy detections))%nat ->
    (forall id, ids !! j = Some (Some id) <->
       exists i t, (i < n)%nat /\ tracks !! i = Some t /\ track_id t = id /\
         claims detections tracks i j /\
         forall i', (i < i' < n)%nat -> ~ claims detections tracks i' j) /\
    (ids !! j = Some None <-> forall i, (i < n)%nat -> ~ claims detections tracks i j).

(** The result of the associator: one slot per detection; slot [j] holds the
    id of the last track row, in row order, that claims [j], and [None]
    when no row claims it. *)
Definition last_writer_wins (detections : Detections) (tracks : list STrack)
    (tracker_ids : list (option Z)) : Prop :=
  length tracker_ids = length (xyxy detections) /\
  forall j, (j < length (xyxy detections))%nat ->
    (forall id, tracker_ids !! j = Some (Some id) <->
       exists i t, tracks !! i = Some t /\ track_id t = id /\
         claims detections tracks i j /\
         forall i', (i < i')%nat -> ~ claims detections tracks i' j) /\
    (tracker_ids !! j = Some None <-> forall i, ~ claims detections tracks i j).

(** Positions of the [True] entries of a mask, counted from [i]. *)
Fixpoint true_positions_from (i : nat) (mask : list bool) : list nat :=
  match mask with
  | [] => []
  | m :: mask' =>
      if m then i :: true_positions_from (S i) mask'
      else true_positions_from (S i) mask'
  end.

(** [np.flatnonzero(mask)]. *)
Definition true_positions (mask : list bool) : list nat := true_positions_from 0 mask.

(** The entries of [arr] at the given positions, in the order of the
    positions. *)
Definition at_positions {A : Type} (arr : list A) (ps : list nat) : list A :=
  omap (fun p => arr !! p) ps.

(** Class names in first-seen order: every later repetition removed. *)
Fixpoint first_seen (l : list string) : list string :=
  match l with
  | [] => []
  | x :: l' => x :: List.filter (fun y => negb (String.eqb x y)) (first_seen l')
  end.

(** The counting statement of the annotation loop, on a bare class name. *)
Definition tally_step (d : Py.dict nat) (n : string) : Py.dict nat :=
  Py.dict_set d n (Py.dict_get d n 0 + 1)%nat.

Definition tally (l : list string) : Py.dict nat := fold_left tally_step l [].

Definition has_key (keys : list string) (k : string) : bool :=
  existsb (String.eqb k) keys.

(** The allow-list test of [process_frame]: the class id is a key of the
    names dictionary. *)
Definition allowed (names : gmap Z string) (r : RawDet) : bool :=
  bool_decide (det_cls r ∈ elements (dom names)).

(** The rows that pass the allow-list, in order. *)
Definition kept (names : gmap Z string) (pred0 : list RawDet) : list RawDet :=
  List.filter (allowed names) pred0.

(** The [Detections] object built from rows. *)
Definition detections_of (l : list RawDet) : Detections :=
  Detections_init (map det_xyxy l) (map det_conf l) (map det_cls l).

(** The (box, confidence) rows sent to the tracker. *)
Definition rows_of (l : list RawDet) : list (Box * Q) :=
  map (fun r => (det_xyxy r, det_conf r)) l.

(** The class names of rows, one per row whose class id has a name. *)
Definition names_of (names : gmap Z string) (l : list RawDet) : list string :=
  omap (fun r => names !! det_cls r) l.

(** The labelled box drawn for a row and its tracker id. *)
Definition label (names : gmap Z string) (r : RawDet) (tid : option Z)
  : Box * string * Q * option Z :=
  (det_xyxy r, default EmptyString (names !! det_cls r), det_conf r, tid).

(** ** Sample data *)

Definition box_a : Box := mkBox 0 0 10 10.
Definition box_b : Box := mkBox 20 20 30 30.
Definition box_c : Box := mkBox 5 0 15 10.
Definition box_bad : Box := mkBox 10 10 5 5.
Definition box_zero : Box := mkBox 0 0 0 0.

Definition sample_names : gmap Z string :=
  <[0%Z := "breast"%string]> (<[1%Z := "thigh"%string]> ∅).

Definition sample_detections : Detections :=
  mkDetections [box_a; box_b; box_c] [9 # 10; 8 # 10; 7 # 10] [0%Z; 1%Z; 0%Z] None.

Definition sample_tracks : list STrack :=
  [mkSTrack box_b 7; mkSTrack box_a 8; mkSTrack box_a 9].

(** A stand-in tracker: it counts the frames it has seen and mirrors each
    input row as a track numbered from 1. *)
Definition mirror_tracker (st : nat) (rows : list (Box * Q)) : nat * list STrack :=
  (S st, imap (fun i row => mkSTrack (fst row) (Z.of_nat (S i))) rows).

Definition sample_frame : list RawDet :=
  [mkRawDet box_a (9 # 10) 0; mkRawDet box_b (8 # 10) 1; mkRawDet box_c (7 # 10) 0].

(** A frame with a malformed box of an allowed class and a well-formed box
    of a class without a name. *)
Definition mixed_frame : list RawDet :=
  [mkRawDet box_bad (9 # 10) 0; mkRawDet box_a (1 # 2) 5].

(** The three arrays every [Detections] object carries have length [N]. *)
Definition aligned (self : Detections) (N : nat) : Prop :=
  length (xyxy self) = N /\ length (confidence self) = N /\ length (class_id self) = N.

(** Sum of the counts of a dictionary. *)
Definition total_count (d : Py.dict nat) : nat := sum_list (map snd d).

(** Detections with tracker ids assigned, and detections whose confidence
    array is one entry short. *)
Definition tracked_detections : Detections :=
  mkDetections [box_a; box_b; box_c] [9 # 10; 8 # 10; 7 # 10] [0%Z; 1%Z; 0%Z]
    (Some [Some 9%Z; Some 7%Z; None]).

Definition misaligned_detections : Detections :=
  mkDetections [box_a; box_b] [9 # 10] [0%Z; 1%Z] None.

(** ** Sanity checks on the sample data *)

Example sample_match :
  match_detections_with_tracks sample_detections sample_tracks
  = Ok [Some 9%Z; Some 7%Z; None].
Proof. vm_compute. reflexivity. Qed.

Example sample_process :
  exists out, process_frame mirror_tracker sample_names 0%nat sample_frame = Ok out /\
   class_counts out = [("breast"%string, 2%nat); ("thigh"%string, 1%nat)] /\
   map snd (drawn out) = [Some 1%Z; Some 2%Z; Some 3%Z].
Proof. eexists. split; [vm_compute; reflexivity|]. split; reflexivity. Qed.

Example half_overlap_iou : IoU.box_iou box_a box_c == 1 # 3.
Proof. reflexivity. Qed.

(** ** Facts about the IoU value *)

Lemma intersection_nonneg a b : 0 <= IoU.intersection a b.
Proof.
  unfold IoU.intersection. apply Qmult_le_0_compat; apply Q.le_max_l.
Qed.

Lemma intersection_comm a b : IoU.intersection a b == IoU.intersection b a.
Proof.
  unfold IoU.intersection.
  rewrite (Q.min_comm (bx2 a)), (Q.max_comm (bx1 a)),
    (Q.min_comm (by2 a)), (Q.max_comm (by1 a)). reflexivity.
Qed.

Lemma intersection_self a : valid_box a -> IoU.intersection a a == box_area a.
Proof.
  intros [Hx Hy]. unfold IoU.intersection, box_area.
  rewrite !Q.min_id, !Q.max_id.
  rewrite !Q.max_r by lra. reflexivity.
Qed.

Lemma Qmax0_pos_mult (w h : Q) :
  0 < Qmax 0 w * Qmax 0 h -> 0 < w /\ 0 < h /\ Qmax 0 w * Qmax 0 h == w * h.
Proof.
  intros H.
  destruct (Q.max_spec 0 w) as [[Hw Ew]|[Hw Ew]];
  destruct (Q.max_spec 0 h) as [[Hh Eh]|[Hh Eh]];
  rewrite Ew, Eh in *; try (lra); try (split; [|split]; try lra; reflexivity).
Qed.

(** A positive intersection needs two boxes of positive area, so the
    union is positive as well. *)
Lemma intersection_pos_union a b :
  0 < IoU.intersection a b -> 0 < IoU.union a b.
Proof.
  unfold IoU.union. intros H. 
  assert (Hle: IoU.intersection a b <= box_area a).
  { revert H. unfold IoU.intersection, box_area. intros H.
    apply Qmax0_pos_mult in H as (Hw & Hh & ->).
    pose proof (Q.le_min_l (bx2 a) (bx2 b)).
    pose proof (Q.le_max_l (bx1 a) (bx1 b)).
    pose proof (Q.le_min_l (by2 a) (by2 b)).
    pose proof (Q.le_max_l (by1 a) (by1 b)).
    set (w := Qmin (bx2 a) (bx2 b) - Qmax (bx1 a) (bx1 b)) in *.
    set (h := Qmin (by2 a) (by2 b) - Qmax (by1 a) (by1 b)) in *.
    assert (w <= bx2 a - bx1 a) by (unfold w; lra).
    assert (h <= by2 a - by1 a) by (unfold h; lra).
    clearbody w h. nra. }
  assert (Hlt: 0 < box_area b).
  { revert H. unfold IoU.intersection, box_area. intros H.
    apply Qmax0_pos_mult in H as (Hw & Hh & _).
    pose proof (Q.le_min_r (bx2 a) (bx2 b)).
    pose proof (Q.le_max_r (bx1 a) (bx1 b)).
    pose proof (Q.le_min_r (by2 a) (by2 b)).
    pose proof (Q.le_max_r (by1 a) (by1 b)).
    apply Qmult_lt_0_compat; lra. }
  lra.
Qed.

Lemma box_iou_zero_intersection a b :
  IoU.intersection a b == 0 -> IoU.box_iou a b == 0.
Proof.
  intros H. unfold IoU.box_iou.
  destruct (Qeq_bool (IoU.union a b) 0); [reflexivity|].
  rewrite H. unfold Qdiv. apply Qmult_0_l.
Qed.

Lemma box_iou_nonneg a b : 0 <= IoU.box_iou a b.
Proof.
  destruct (Qlt_le_dec 0 (IoU.intersection a b)) as [Hpos|Hle].
  - pose proof (intersection_pos_union a b Hpos) as Hu.
    unfold IoU.box_iou.
    destruct (Qeq_bool (IoU.union a b) 0); [apply Qle_refl|].
    apply Qle_shift_div_l; [exact Hu|]. rewrite Qmult_0_l. apply Qlt_le_weak, Hpos.
  - rewrite box_iou_zero_intersection; [apply Qle_refl|].
    apply Qle_antisym; [exact Hle | apply intersection_nonneg].
Qed.


Lemma truthy_iff (q : Q) : Np.truthy q = true <-> ~ q == 0.
Proof.
  unfold Np.truthy. rewrite negb_true_iff. split.
  - apply Qeq_bool_neq.
  - intros H. destruct (Qeq_bool q 0) eqn:E; [|reflexivity].
    apply Qeq_bool_iff in E. contradiction.
Qed.

(** On IoU values the test [!= 0] of the loop is the test [> 0]. *)
Lemma truthy_box_iou a b : Np.truthy (IoU.box_iou a b) = true <-> 0 < IoU.box_iou a b.
Proof.
  rewrite truthy_iff. pose proof (box_iou_nonneg a b). split; intros; lra.
Qed.

Lemma box_iou_self a : valid_box a -> IoU.box_iou a a == 1.
Proof.
  intros Hv. pose proof (intersection_self a Hv) as Hi.
  assert (Ha : 0 < box_area a).
  { destruct Hv. unfold box_area. apply Qmult_lt_0_compat; lra. }
  unfold IoU.box_iou, IoU.union. rewrite Hi.
  destruct (Qeq_bool (box_area a + box_area a - box_area a) 0) eqn:E.
  - apply Qeq_bool_iff in E. lra.
  - assert (Hs : box_area a + box_area a - box_area a == box_area a) by ring.
    rewrite Hi, Hs.
    unfold Qdiv. apply Qmult_inv_r. lra.
Qed.

Lemma disjoint_intersection a b : disjoint_boxes a b -> IoU.intersection a b == 0.
Proof.
  intros Hd. unfold IoU.intersection.
  pose proof (Q.le_min_l (bx2 a) (bx2 b)).
  pose proof (Q.le_min_r (bx2 a) (bx2 b)).
  pose proof (Q.le_max_l (bx1 a) (bx1 b)).
  pose proof (Q.le_max_r (bx1 a) (bx1 b)).
  pose proof (Q.le_min_l (by2 a) (by2 b)).
  pose proof (Q.le_min_r (by2 a) (by2 b)).
  pose proof (Q.le_max_l (by1 a) (by1 b)).
  pose proof (Q.le_max_r (by1 a) (by1 b)).
  destruct Hd as [Hd|[Hd|[Hd|Hd]]].
  1,2: rewrite (Q.max_l 0 (Qmin (bx2 a) (bx2 b) - Qmax (bx1 a) (bx1 b))) by lra;
       apply Qmult_0_l.
  1,2: rewrite (Q.max_l 0 (Qmin (by2 a) (by2 b) - Qmax (by1 a) (by1 b))) by lra;
       apply Qmult_0_r.
Qed.

Lemma box_iou_comm a b : IoU.box_iou a b == IoU.box_iou b a.
Proof.
  assert (Hu : IoU.union a b == IoU.union b a).
  { unfold IoU.union. rewrite (intersection_comm a b). ring. }
  unfold IoU.box_iou.
  rewrite Hu.
  destruct (Qeq_bool (IoU.union b a) 0); [reflexivity|].
  rewrite Hu, (intersection_comm a b). reflexivity.
Qed.

Lemma zero_box_iou (a b : Box) :
  bx1 b == 0 /\ by1 b == 0 /\ bx2 b == 0 /\ by2 b == 0 ->
  IoU.box_iou a b == 0.
Proof.
  intros (H1 & H2 & H3 & H4). apply box_iou_zero_intersection.
  unfold IoU.intersection.
  pose proof (Q.le_min_r (bx2 a) (bx2 b)).
  pose proof (Q.le_max_r (bx1 a) (bx1 b)).
  rewrite (Q.max_l 0 (Qmin (bx2 a) (bx2 b) - Qmax (bx1 a) (bx1 b))) by lra.
  apply Qmult_0_l.
Qed.

(** ** Facts about [np.any] and [np.argmax] *)

Lemma any_false_coords (boxes : list Box) (b : Box) :
  Np.any boxes = false -> b ∈ boxes ->
  bx1 b == 0 /\ by1 b == 0 /\ bx2 b == 0 /\ by2 b == 0.
Proof.
  unfold Np.any. intros Hany Hb.
  assert (Hc : existsb Np.truthy (Np.box_coords b) = false).
  { destruct (existsb Np.truthy (Np.box_coords b)) eqn:E; [|reflexivity].
    rewrite <- Hany. symmetry. apply existsb_exists. exists b.
    split; [apply list_elem_of_In; exact Hb | exact E]. }
  unfold Np.box_coords in Hc. simpl in Hc.
  repeat (apply orb_false_iff in Hc as [? Hc]).
  unfold Np.truthy in *.
  repeat match goal with
  | H : negb (Qeq_bool _ 0) = false |- _ =>
      apply negb_false_iff, Qeq_bool_iff in H
  end.
  auto.
Qed.

Lemma all_zero_any (boxes : list Box) : Forall all_zero boxes -> Np.any boxes = false.
Proof.
  unfold Np.any.
  induction 1 as [|b boxes (H1 & H2 & H3 & H4) _ IH]; cbn [existsb]; [reflexivity|].
  rewrite IH. unfold Np.box_coords, Np.truthy. cbn [existsb].
  apply Qeq_bool_iff in H1, H2, H3, H4. rewrite H1, H2, H3, H4. reflexivity.
Qed.

Lemma best_column_unique row j j' :
  best_column row j -> best_column row j' -> j = j'.
Proof.
  intros (v & Hj & Hmax & Hfirst) (v' & Hj' & Hmax' & Hfirst').
  destruct (Nat.lt_trichotomy j j') as [Hlt|[Heq|Hgt]]; [|exact Heq|].
  - pose proof (Hfirst' _ _ Hlt Hj). pose proof (Hmax _ _ Hj'). lra.
  - pose proof (Hfirst _ _ Hgt Hj'). pose proof (Hmax' _ _ Hj). lra.
Qed.

Lemma argmax_from_best (l pre : list Q) (best_i : nat) (best : Q) :
  pre !! best_i = Some best ->
  (forall k w, pre !! k = Some w -> w <= best) ->
  (forall k w, (k < best_i)%nat -> pre !! k = Some w -> w < best) ->
  best_column (pre ++ l) (Np.argmax_from best_i best (length pre) l).
Proof.
  revert pre best_i best.
  induction l as [|x l IH]; intros pre best_i best Hb Hmax Hfirst; simpl.
  - rewrite app_nil_r. exists best. auto.
  - pose proof (lookup_lt_Some _ _ _ Hb) as Hlen.
    replace (pre ++ x :: l) with ((pre ++ [x]) ++ l) by (rewrite <- app_assoc; reflexivity).
    replace (S (length pre)) with (length (pre ++ [x])) by (rewrite length_app; simpl; lia).
    destruct (Qle_bool x best) eqn:E.
    + apply Qle_bool_iff in E. apply IH.
      * rewrite lookup_app_l by exact Hlen. exact Hb.
      * intros k w Hk. apply lookup_app_Some in Hk as [Hk|[Hge Hk]]; [eauto|].
        destruct (k - length pre)%nat; simpl in Hk; [|discriminate].
        injection Hk as <-. exact E.
      * intros k w Hlt Hk. rewrite lookup_app_l in Hk by lia. eauto.
    + assert (Hx : best < x).
      { apply Qnot_le_lt. intros Hle. apply Qle_bool_iff in Hle. congruence. }
      replace (length pre) with (length pre + 0)%nat at 1 by lia.
      rewrite length_app. simpl. replace (length pre + 1)%nat with (length (pre ++ [x]))
        by (rewrite length_app; reflexivity).
      apply IH.
      * rewrite lookup_app_r by lia. replace (length pre + 0 - length pre)%nat with 0%nat by lia.
        reflexivity.
      * intros k w Hk. apply lookup_app_Some in Hk as [Hk|[Hge Hk]].
        -- pose proof (Hmax _ _ Hk). lra.
        -- destruct (k - length pre)%nat; simpl in Hk; [|discriminate].
           injection Hk as <-. lra.
      * intros k w Hlt Hk. rewrite lookup_app_l in Hk by lia.
        pose proof (Hmax _ _ Hk). lra.
Qed.

Lemma argmax_col_best row : row <> [] -> best_column row (argmax_col row).
Proof.
  destruct row as [|x l]; [congruence|]. intros _. simpl.
  apply (argmax_from_best l [x] 0%nat x).
  - reflexivity.
  - intros [|k] w Hk; simpl in Hk; [|discriminate]. injection Hk as <-. lra.
  - intros k w Hlt. lia.
Qed.

Lemma argmax_ok row : row <> [] -> Np.argmax row = Ok (argmax_col row).
Proof. destruct row; [congruence|reflexivity]. Qed.

Lemma argmax_axis1_batch (detections : Detections) (tracks : list STrack) :
  xyxy detections <> [] ->
  Np.argmax_axis1 (IoU.box_iou_batch (tracks2boxes tracks) (xyxy detections))
  = Ok (map (fun t => argmax_col (iou_row detections t)) tracks).
Proof.
  intros HD. unfold Np.argmax_axis1, IoU.box_iou_batch, tracks2boxes.
  rewrite map_map.
  induction tracks as [|t tracks IH]; simpl; [reflexivity|].
  rewrite argmax_ok.
  - simpl. rewrite IH. reflexivity.
  - destruct (xyxy detections); [congruence|discriminate].
Qed.

Lemma iou_batch_lookup (detections : Detections) (tracks : list STrack) i t :
  tracks !! i = Some t ->
  IoU.box_iou_batch (tracks2boxes tracks) (xyxy detections) !! i
  = Some (iou_row detections t).
Proof.
  intros Ht. unfold IoU.box_iou_batch, tracks2boxes. rewrite map_map.
  change (map ?f tracks) with (f <$> tracks).
  rewrite list_lookup_fmap, Ht. reflexivity.
Qed.

(** ** The assignment loop *)

Lemma claims_iff (detections : Detections) (tracks : list STrack) i j t :
  xyxy detections <> [] ->
  tracks !! i = Some t ->
  claims detections tracks i j <->
  j = argmax_col (iou_row detections t) /\
  exists v, iou_row detections t !! j = Some v /\ 0 < v.
Proof.
  intros HD Ht.
  assert (Hrow : iou_row detections t <> []).
  { unfold iou_row. destruct (xyxy detections); [congruence|discriminate]. }
  pose proof (argmax_col_best _ Hrow) as Hbest.
  split.
  - intros (t' & v & Ht' & Hb & Hv & Hpos).
    assert (t' = t) as -> by congruence.
    split; [eapply best_column_unique; eassumption|eauto].
  - intros (-> & v & Hv & Hpos). exists t, v. auto.
Qed.

Lemma claims_lt (detections : Detections) (tracks : list STrack) i j :
  claims detections tracks i j -> (i < length tracks)%nat.
Proof. intros (t & _ & Ht & _). eapply lookup_lt_Some; eassumption. Qed.

Lemma any_false_no_claim (detections : Detections) (tracks : list STrack) i j :
  Np.any (xyxy detections) = false -> ~ claims detections tracks i j.
Proof.
  intros Hany (t & v & _ & _ & Hv & Hpos).
  unfold iou_row in Hv. change (map ?f ?l) with (f <$> l) in Hv.
  rewrite list_lookup_fmap in Hv.
  destruct (xyxy detections !! j) as [b|] eqn:Eb; [|discriminate].
  injection Hv as <-.
  assert (Hb : b ∈ xyxy detections) by (apply list_elem_of_lookup; eauto).
  rewrite (zero_box_iou (tlbr t) b (any_false_coords _ _ Hany Hb)) in Hpos. lra.
Qed.

Lemma assigned_upto_0 (detections : Detections) (tracks : list STrack) :
  assigned_upto detections tracks 0 (replicate (length (xyxy detections)) None).
Proof.
  split; [apply length_replicate|].
  intros j Hj. split.
  - intros id. split.
    + intros H. apply lookup_replicate in H as [H _]. discriminate.
    + intros (i & _ & Hi & _). lia.
  - split; [intros _ i Hi; lia|].
    intros _. apply lookup_replicate. auto.
Qed.

(** One iteration of the loop extends the invariant by one track row. *)
Lemma assign_track_step (detections : Detections) (tracks : list STrack) n t ids :
  xyxy detections <> [] ->
  tracks !! n = Some t ->
  assigned_upto detections tracks n ids ->
  exists ids',
    assign_track (IoU.box_iou_batch (tracks2boxes tracks) (xyxy detections)) tracks ids
      (n, argmax_col (iou_row detections t)) = Ok ids' /\
    assigned_upto detections tracks (S n) ids'.
Proof.
  intros HD Ht [Hlen Hinv].
  assert (Hrow : iou_row detections t <> []).
  { unfold iou_row. destruct (xyxy detections); [congruence|discriminate]. }
  destruct (argmax_col_best _ Hrow) as (v & Hv & _).
  set (d := argmax_col (iou_row detections t)) in *.
  assert (Hd : (d < length (xyxy detections))%nat).
  { apply lookup_lt_Some in Hv. unfold iou_row in Hv. rewrite length_map in Hv. exact Hv. }
  assert (Hvb : exists b, v = IoU.box_iou (tlbr t) b).
  { unfold iou_row in Hv. change (map ?f ?l) with (f <$> l) in Hv.
    rewrite list_lookup_fmap in Hv. destruct (xyxy detections !! d); [|discriminate].
    injection Hv as <-. eauto. }
  destruct Hvb as [b Hvb].
  assert (Hclaim : forall j, claims detections tracks n j <-> j = d /\ 0 < v).
  { intros j. rewrite (claims_iff _ _ _ _ _ HD Ht). fold d. split.
    - intros (-> & w & Hw & Hpos). split; [reflexivity|]. congruence.
    - intros (-> & Hpos). eauto. }
  unfold assign_track, iou_at, Py.getitem.
  rewrite (iou_batch_lookup _ _ _ _ Ht). simpl. rewrite Hv. simpl.
  destruct (Np.truthy v) eqn:Etr.
  - assert (Hpos : 0 < v) by (subst v; apply truthy_box_iou; exact Etr).
    rewrite Ht. simpl. unfold Py.setitem.
    assert ((d <? length ids)%nat = true) as -> by (apply Nat.ltb_lt; lia).
    eexists. split; [reflexivity|].
    split; [rewrite length_insert; exact Hlen|].
    intros j Hj. destruct (decide (j = d)) as [->|Hne].
    + rewrite list_lookup_insert_eq by lia. split.
      * intros id. split.
        -- intros [= <-]. exists n, t.
           split; [lia|]. split; [exact Ht|]. split; [reflexivity|].
           split; [apply Hclaim; auto|]. intros i' Hi'. lia.
        -- intros (i & t' & Hi & Hti & Hid & Hc & Hlast).
           destruct (decide (i = n)) as [->|Hin].
           ++ congruence.
           ++ exfalso. apply (Hlast n); [lia|]. apply Hclaim. auto.
      * split; [discriminate|]. intros H. exfalso. apply (H n); [lia|].
        apply Hclaim. auto.
    + rewrite list_lookup_insert_ne by congruence.
      destruct (Hinv j Hj) as [Hsome Hnone]. split.
      * intros id. rewrite Hsome. split.
        -- intros (i & t' & Hi & Hti & Hid & Hc & Hlast).
           exists i, t'. repeat split; auto.
           intros i' Hi'. destruct (decide (i' = n)) as [->|Hin].
           ++ rewrite Hclaim. intros [? _]. congruence.
           ++ apply Hlast. lia.
        -- intros (i & t' & Hi & Hti & Hid & Hc & Hlast).
           assert (i <> n) by (intros ->; apply Hclaim in Hc as [? _]; congruence).
           exists i, t'. repeat split; auto; try lia.
           intros i' Hi'. apply Hlast. lia.
      * rewrite Hnone. split.
        -- intros H i Hi. destruct (decide (i = n)) as [->|Hin].
           ++ rewrite Hclaim. intros [? _]. congruence.
           ++ apply H. lia.
        -- intros H i Hi. apply H. lia.
  - assert (Hpos : ~ 0 < v).
    { subst v. rewrite <- truthy_box_iou. congruence. }
    eexists. split; [reflexivity|].
    split; [exact Hlen|].
    intros j Hj. destruct (Hinv j Hj) as [Hsome Hnone]. split.
    + intros id. rewrite Hsome. split.
      * intros (i & t' & Hi & Hti & Hid & Hc & Hlast).
        exists i, t'. repeat split; auto.
        intros i' Hi'. destruct (decide (i' = n)) as [->|Hin].
        -- rewrite Hclaim. intros [_ ?]. auto.
        -- apply Hlast. lia.
      * intros (i & t' & Hi & Hti & Hid & Hc & Hlast).
        assert (i <> n) by (intros ->; apply Hclaim in Hc as [_ ?]; auto).
        exists i, t'. repeat split; auto; try lia.
        intros i' Hi'. apply Hlast. lia.
    + rewrite Hnone. split.
      * intros H i Hi. destruct (decide (i = n)) as [->|Hin].
        -- rewrite Hclaim. intros [_ ?]. auto.
        -- apply H. lia.
      * intros H i Hi. apply H. lia.
Qed.

Lemma assign_loop (detections : Detections) (tracks : list STrack) :
  xyxy detections <> [] ->
  forall post pre ids,
    tracks = pre ++ post ->
    assigned_upto detections tracks (length pre) ids ->
    exists ids',
      Py.for_each
        (assign_track (IoU.box_iou_batch (tracks2boxes tracks) (xyxy detections)) tracks)
        (zip (seq (length pre) (length post))
             (map (fun t => argmax_col (iou_row detections t)) post))
        ids = Ok ids' /\
      assigned_upto detections tracks (length tracks) ids'.
Proof.
  intros HD. induction post as [|t post IH]; intros pre ids Htr Hinv.
  - simpl. exists ids. split; [reflexivity|].
    replace (length tracks) with (length pre); [exact Hinv|].
    rewrite Htr, app_nil_r. reflexivity.
  - cbn [length seq map zip_with Py.for_each].
    assert (Ht : tracks !! length pre = Some t).
    { rewrite Htr. rewrite lookup_app_r by lia.
      replace (length pre - length pre)%nat with 0%nat by lia. reflexivity. }
    destruct (assign_track_step _ _ _ _ _ HD Ht Hinv) as (ids1 & Hstep & Hinv1).
    rewrite Hstep. cbn [rbind].
    specialize (IH (pre ++ [t]) ids1).
    rewrite length_app in IH. simpl in IH.
    replace (length pre + 1)%nat with (S (length pre)) in IH by lia.
    apply IH; [|exact Hinv1].
    rewrite Htr, <- app_assoc. reflexivity.
Qed.

(** The associator is total, and its result is described by
    [assigned_upto] over all the track rows. *)
Lemma match_assigned (detections : Detections) (tracks : list STrack) :
  exists tracker_ids,
    match_detections_with_tracks detections tracks = Ok tracker_ids /\
    assigned_upto detections tracks (length tracks) tracker_ids.
Proof.
  unfold match_detections_with_tracks.
  destruct (Np.any (xyxy detections)) eqn:Eany; simpl.
  - assert (HD : xyxy detections <> []).
    { intros E. rewrite E in Eany. discriminate. }
    destruct (length tracks =? 0)%nat eqn:Elen.
    + apply Nat.eqb_eq in Elen. rewrite Elen.
      eexists. split; [reflexivity|]. apply assigned_upto_0.
    + rewrite (argmax_axis1_batch _ _ HD). cbn [rbind].
      unfold Py.enumerate. rewrite length_map.
      apply (assign_loop detections tracks HD tracks [] _ eq_refl).
      apply assigned_upto_0.
  - eexists. split; [reflexivity|].
    split; [apply length_replicate|].
    intros j Hj. split.
    + intros id. split.
      * intros H. apply lookup_replicate in H as [H _]. discriminate.
      * intros (i & t & _ & _ & _ & Hc & _).
        exfalso. eapply any_false_no_claim; eassumption.
    + split.
      * intros _ i _. apply any_false_no_claim; exact Eany.
      * intros _. apply lookup_replicate. auto.
Qed.

Lemma match_total (detections : Detections) (tracks : list STrack) :
  exists tracker_ids,
    match_detections_with_tracks detections tracks = Ok tracker_ids /\
    length tracker_ids = length (xyxy detections).
Proof.
  destruct (match_assigned detections tracks) as (ids & Hm & Hlen & _). eauto.
Qed.

(** ** Boolean-mask selection *)

Lemma true_positions_from_bounds mask i p :
  p ∈ true_positions_from i mask -> (i <= p < i + length mask)%nat.
Proof.
  revert i. induction mask as [|m mask IH]; intros i Hp; simpl in *.
  - inversion Hp.
  - destruct m.
    + apply elem_of_cons in Hp as [->|Hp]; [lia|]. apply IH in Hp. lia.
    + apply IH in Hp. lia.
Qed.

Lemma true_positions_from_sorted mask i :
  StronglySorted lt (true_positions_from i mask).
Proof.
  revert i. induction mask as [|m mask IH]; intros i; simpl.
  - constructor.
  - destruct m; [|apply IH].
    constructor; [apply IH|].
    apply Forall_forall. intros p Hp.
    apply true_positions_from_bounds in Hp. lia.
Qed.

Lemma at_positions_length {A : Type} (arr : list A) (ps : list nat) :
  (forall p, p ∈ ps -> (p < length arr)%nat) ->
  length (at_positions arr ps) = length ps.
Proof.
  unfold at_positions. induction ps as [|p ps IH]; intros H; simpl; [reflexivity|].
  destruct (lookup_lt_is_Some_2 arr p) as [x Hx]; [apply H; left|].
  rewrite Hx. simpl. f_equal. apply IH. intros q Hq. apply H. right. exact Hq.
Qed.

Lemma at_positions_shift {A : Type} (x : A) (arr : list A) i mask :
  at_positions (x :: arr) (true_positions_from (S i) mask)
  = at_positions arr (true_positions_from i mask).
Proof.
  unfold at_positions. revert i.
  induction mask as [|m mask IH]; intros i; simpl; [reflexivity|].
  destruct m; simpl; rewrite IH; reflexivity.
Qed.

Lemma mask_select_positions {A : Type} (arr : list A) (mask : list bool) :
  length arr = length mask ->
  Np.mask_select arr mask = Ok (at_positions arr (true_positions mask)).
Proof.
  unfold true_positions. revert mask.
  induction arr as [|x arr IH]; intros [|m mask] Hlen; simpl in *; try discriminate.
  - reflexivity.
  - rewrite (IH mask) by congruence. simpl.
    destruct m.
    + rewrite <- (at_positions_shift x arr 0 mask). reflexivity.
    + rewrite <- (at_positions_shift x arr 0 mask). reflexivity.
Qed.

Lemma mask_select_length_mismatch {A : Type} (arr : list A) (mask : list bool) :
  length arr <> length mask -> Np.mask_select arr mask = Raise IndexError.
Proof.
  revert mask. induction arr as [|x arr IH]; intros [|m mask] Hlen; simpl in *;
    try congruence.
  rewrite IH by congruence. reflexivity.
Qed.

Lemma mask_select_filter {A B : Type} (f : A -> B) (p : A -> bool) (l : list A) :
  Np.mask_select (map f l) (map p l) = Ok (map f (List.filter p l)).
Proof.
  induction l as [|x l IH]; simpl; [reflexivity|].
  rewrite IH. simpl. destruct (p x); reflexivity.
Qed.

(** Copy mode on aligned arrays: the three masked arrays in a fresh object,
    the receiver untouched. *)
Lemma filter_copy_fields (self : Detections) (mask : list bool) :
  length (xyxy self) = length mask ->
  length (confidence self) = length mask ->
  length (class_id self) = length mask ->
  let ps := true_positions mask in
  Detections_filter self mask false
  = (self, Ok (Some (Detections_init (at_positions (xyxy self) ps)
                       (at_positions (confidence self) ps)
                       (at_positions (class_id self) ps)))).
Proof.
  intros H1 H2 H3. unfold Detections_filter, filter_copy.
  rewrite !mask_select_positions by assumption. reflexivity.
Qed.

(** ** Counting *)

Lemma dict_get_set {V : Type} (d : Py.dict V) k v n default :
  Py.dict_get (Py.dict_set d k v) n default
  = if String.eqb k n then v else Py.dict_get d n default.
Proof.
  induction d as [|[k' v'] d IH]; simpl.
  - reflexivity.
  - destruct (String.eqb k' k) eqn:Ek; simpl.
    + apply String.eqb_eq in Ek as ->. destruct (String.eqb k n); reflexivity.
    + destruct (String.eqb k' n) eqn:En; [|exact IH].
      apply String.eqb_eq in En as ->.
      rewrite String.eqb_sym, Ek. reflexivity.
Qed.

Lemma dict_set_keys {V : Type} (d : Py.dict V) k v :
  map fst (Py.dict_set d k v)
  = if has_key (map fst d) k then map fst d else map fst d ++ [k].
Proof.
  unfold has_key. induction d as [|[k' v'] d IH]; simpl.
  - reflexivity.
  - rewrite (String.eqb_sym k k').
    destruct (String.eqb k' k) eqn:Ek; simpl; [reflexivity|].
    rewrite IH. destruct (existsb (String.eqb k) (map fst d)); reflexivity.
Qed.

Lemma tally_counts (l : list string) (d : Py.dict nat) (n : string) :
  Py.dict_get (fold_left tally_step l d) n 0%nat
  = (Py.dict_get d n 0 + count_occ String.string_dec l n)%nat.
Proof.
  revert d. induction l as [|x l IH]; intros d; simpl; [lia|].
  rewrite IH. unfold tally_step at 1. rewrite dict_get_set.
  destruct (String.string_dec x n) as [->|Hne].
  - rewrite String.eqb_refl. lia.
  - apply String.eqb_neq in Hne. rewrite Hne. lia.
Qed.

Lemma filter_filter_bool {A : Type} (p q : A -> bool) (l : list A) :
  List.filter p (List.filter q l) = List.filter (fun x => q x && p x) l.
Proof.
  induction l as [|x l IH]; simpl; [reflexivity|].
  destruct (q x); simpl; [destruct (p x)|]; rewrite IH; reflexivity.
Qed.

Lemma tally_keys (l : list string) (d : Py.dict nat) :
  map fst (fold_left tally_step l d)
  = map fst d ++ List.filter (fun y => negb (has_key (map fst d) y)) (first_seen l).
Proof.
  revert d. induction l as [|x l IH]; intros d; simpl.
  - rewrite app_nil_r. reflexivity.
  - rewrite IH. unfold tally_step at 1 2. rewrite dict_set_keys.
    destruct (has_key (map fst d) x) eqn:Ex; simpl.
    + f_equal. rewrite filter_filter_bool. apply filter_ext. intros y.
      destruct (String.eqb x y) eqn:Exy; simpl; [|reflexivity].
      apply String.eqb_eq in Exy as <-. rewrite Ex. reflexivity.
    + rewrite <- app_assoc. simpl. f_equal. f_equal.
      rewrite filter_filter_bool. apply filter_ext. intros y.
      unfold has_key. rewrite existsb_app. simpl. rewrite orb_false_r.
      rewrite negb_orb, andb_comm, (String.eqb_sym y x). reflexivity.
Qed.

Lemma tally_first_seen (l : list string) : map fst (tally l) = first_seen l.
Proof.
  unfold tally. rewrite tally_keys. simpl.
  induction (first_seen l) as [|y k IH]; simpl; congruence.
Qed.

Lemma tally_count_occ (l : list string) (n : string) :
  Py.dict_get (tally l) n 0%nat = count_occ String.string_dec l n.
Proof. unfold tally. rewrite tally_counts. reflexivity. Qed.

(** ** Running [process_frame] *)

Lemma allowed_lookup names r : allowed names r = true <-> is_Some (names !! det_cls r).
Proof.
  unfold allowed. rewrite bool_decide_eq_true, elem_of_elements, elem_of_dom.
  reflexivity.
Qed.

Lemma kept_allowed names pred0 r :
  r ∈ kept names pred0 -> is_Some (names !! det_cls r).
Proof.
  unfold kept. rewrite list_elem_of_In, filter_In. intros [_ H].
  apply allowed_lookup. exact H.
Qed.

Lemma detections_of_interest_kept names pred0 :
  detections_of_interest names pred0 = (detections_of (kept names pred0), Ok None).
Proof.
  unfold detections_of_interest, Detections_filter, filter_inplace, Detections_init.
  cbn [xyxy confidence class_id tracker_id].
  rewrite map_map.
  change (map (fun x => bool_decide (det_cls x ∈ elements (dom names))) pred0)
    with (map (allowed names) pred0).
  rewrite (mask_select_filter det_xyxy).
  cbn [set_xyxy set_confidence set_class_id xyxy confidence class_id tracker_id].
  rewrite (mask_select_filter det_conf).
  cbn [set_xyxy set_confidence set_class_id xyxy confidence class_id tracker_id].
  rewrite (mask_select_filter det_cls).
  reflexivity.
Qed.

Lemma zip4_maps {A B C D E : Type} (f : A -> B) (g : A -> C) (h : A -> D)
    (l : list A) (ids : list E) :
  zip4 (map f l) (map g l) (map h l) ids
  = zip_with (fun r t => (f r, g r, h r, t)) l ids.
Proof.
  unfold zip4. revert ids.
  induction l as [|x l IH]; intros [|t ids]; simpl; try reflexivity.
  rewrite IH. reflexivity.
Qed.

Lemma count_loop names (l : list RawDet) :
  (forall r, r ∈ l -> is_Some (names !! det_cls r)) ->
  forall (ids : list (option Z)) counts parts drawn,
    length ids = length l ->
    Py.for_each (count_detection names)
      (zip_with (fun r t => (det_xyxy r, det_conf r, det_cls r, t)) l ids)
      (counts, parts, drawn)
    = Ok (fold_left tally_step (names_of names l) counts,
          parts ++ names_of names l,
          drawn ++ zip_with (label names) l ids).
Proof.
  induction l as [|r l IH]; intros Hall ids counts parts drawn Hlen.
  - destruct ids; simpl; rewrite !app_nil_r; reflexivity.
  - destruct ids as [|t ids]; [discriminate|].
    destruct (Hall r) as [n Hn]; [left|].
    cbn [zip_with Py.for_each count_detection]. unfold class_name_of.
    rewrite Hn. cbn [rbind].
    rewrite IH; [|intros r' Hr'; apply Hall; right; exact Hr'|simpl in Hlen; congruence].
    unfold names_of, label. simpl. rewrite Hn. simpl.
    rewrite <- !app_assoc. reflexivity.
Qed.

Section FrameProcessorFacts.

Variable TrackerState : Type.
Variable byte_tracker_update :
  TrackerState -> list (Box * Q) -> TrackerState * list STrack.

(** No raw detection: the body under [if len(pred[0]) > 0] is skipped. *)
Lemma process_frame_empty names st :
  process_frame byte_tracker_update names st [] = Ok (mkFrameOutput [] [] [] st []).
Proof. reflexivity. Qed.

(** At least one raw detection: the frame runs to the end without raising,
    on the rows that pass the allow-list. *)
Lemma process_frame_nonempty names st pred0 :
  pred0 <> [] ->
  let l := kept names pred0 in
  let upd := byte_tracker_update st (rows_of l) in
  exists ids,
    match_detections_with_tracks (detections_of l) (snd upd) = Ok ids /\
    length ids = length l /\
    process_frame byte_tracker_update names st pred0
    = Ok (mkFrameOutput (tally (names_of names l)) (names_of names l)
            (zip_with (label names) l ids) (fst upd) [rows_of l]).
Proof.
  intros Hne l upd.
  destruct (match_total (detections_of l) (snd upd)) as (ids & Hm & Hlen).
  unfold detections_of, Detections_init in Hlen. cbn [xyxy] in Hlen.
  rewrite length_map in Hlen.
  exists ids. split; [exact Hm|]. split; [exact Hlen|].
  unfold process_frame.
  assert ((0 <? length pred0)%nat = true) as ->.
  { apply Nat.ltb_lt. destruct pred0; [congruence|simpl; lia]. }
  rewrite detections_of_interest_kept. fold l. cbn [rbind].
  assert (Hrows : detections2boxes (detections_of l) = Ok (rows_of l)).
  { unfold detections2boxes, detections_of, Detections_init. cbn [xyxy confidence].
    rewrite !length_map, Nat.eqb_refl. f_equal. unfold rows_of.
    clear. induction l as [|r l IH]; simpl; [reflexivity|]. rewrite IH. reflexivity. }
  rewrite Hrows. cbn [rbind]. fold upd.
  destruct upd as [st' tracks] eqn:Eupd. cbn [fst snd] in *.
  rewrite Hm. cbn [rbind].
  unfold Detections_iter, set_tracker_id, detections_of, Detections_init.
  cbn [xyxy confidence class_id tracker_id].
  assert (Hfourth : (if (0 <? length ids)%nat then ids
                     else replicate (length (map det_xyxy l)) None) = ids).
  { destruct ids as [|t ids]; [|reflexivity]. simpl in *.
    rewrite length_map, <- Hlen. reflexivity. }
  rewrite Hfourth, zip4_maps. cbn [rbind].
  rewrite count_loop; [|apply kept_allowed|exact Hlen].
  reflexivity.
Qed.

End FrameProcessorFacts.

(** ** The frame processor: working set, empty frames, counts *)

Section FrameProcessorClaims.

Variable TrackerState : Type.
Variable byte_tracker_update :
  TrackerState -> list (Box * Q) -> TrackerState * list STrack.

(** C3, as the code has it.  For every frame with at least one raw
    detection, the working set is exactly the raw detections whose class
    id is a key of the names dictionary, in their original order: a row is
    kept if and only if its class id is in the allow-list, whatever its
    box.  These rows are the single input sent to the tracker and the
    detection set given to the associator, whose ids label the drawn
    boxes; the frame does not raise. *)
Theorem working_set_is_class_filtered names st pred0 :
  pred0 <> [] ->
  let l := kept names pred0 in
  let upd := byte_tracker_update st (rows_of l) in
  (forall r, r ∈ l <-> r ∈ pred0 /\ is_Some (names !! det_cls r)) /\
  sublist l pred0 /\
  exists out tracker_ids,
    process_frame byte_tracker_update names st pred0 = Ok out /\
    tracker_calls out = [rows_of l] /\
    match_detections_with_tracks (detections_of l) (snd upd) = Ok tracker_ids /\
    drawn out = zip_with (label names) l tracker_ids /\
    length tracker_ids = length l.
Proof.
  intros Hne l upd. split; [|split].
  - intros r. unfold l, kept. rewrite !list_elem_of_In, filter_In, allowed_lookup.
    reflexivity.
  - unfold l, kept. clear. induction pred0 as [|r p IH]; simpl; [constructor|].
    destruct (allowed names r); [apply sublist_skip | apply sublist_cons]; exact IH.
  - destruct (process_frame_nonempty _ byte_tracker_update names st pred0 Hne)
      as (ids & Hm & Hlen & Hp).
    eexists _, ids. split; [exact Hp|]. cbn. auto.
Qed.

(** C4, as the code has it.  For every frame with no detection left after
    the allow-list filter, the class counts and the occurrence sequence
    are empty.  The tracker is called once, with no input row, when the
    detector returned at least one raw detection; it is not called when
    the raw detection list is itself empty. *)
Theorem no_detections_after_filtering names st pred0 :
  kept names pred0 = [] ->
  exists out,
    process_frame byte_tracker_update names st pred0 = Ok out /\
    class_counts out = [] /\
    chicken_parts out = [] /\
    tracker_calls out = match pred0 with [] => [] | _ :: _ => [[]] end.
Proof.
  intros Hk. destruct pred0 as [|r p] eqn:E.
  - eexists. split; [apply process_frame_empty|]. auto.
  - destruct (process_frame_nonempty _ byte_tracker_update names st (r :: p))
      as (ids & _ & _ & Hp); [discriminate|].
    rewrite Hk in Hp. eexists. split; [exact Hp|]. cbn. auto.
Qed.

(** C5.  For every frame, [chicken_parts] lists the class name of each
    detection that passed the allow-list, in detection order; the keys of
    [class_counts] are these names in first-seen order, and each name maps
    to its number of occurrences in that sequence: one unit per detection,
    whatever tracker id the tracker gave rise to.  In particular the
    sequence breast, thigh, breast gives breast: 2 then thigh: 1. *)
Theorem class_counts_count_detections names st pred0 :
  let l := kept names pred0 in
  exists out seq,
    process_frame byte_tracker_update names st pred0 = Ok out /\
    Forall2 (fun r n => names !! det_cls r = Some n) l seq /\
    chicken_parts out = seq /\
    map fst (class_counts out) = first_seen seq /\
    (forall n, Py.dict_get (class_counts out) n 0%nat = count_occ String.string_dec seq n) /\
    (seq = ["breast"; "thigh"; "breast"]%string ->
     class_counts out = [("breast"%string, 2%nat); ("thigh"%string, 1%nat)]).
Proof.
  intros l.
  assert (HF : Forall2 (fun r n => names !! det_cls r = Some n) l (names_of names l)).
  { assert (Hall : forall r, r ∈ l -> is_Some (names !! det_cls r))
      by (apply kept_allowed).
    clearbody l. induction l as [|r l IH]; [constructor|].
    destruct (Hall r) as [n Hn]; [left|].
    unfold names_of. simpl. rewrite Hn. simpl. constructor; [exact Hn|].
    apply IH. intros r' Hr'. apply Hall. right. exact Hr'. }
  assert (Hout : exists out,
    process_frame byte_tracker_update names st pred0 = Ok out /\
    chicken_parts out = names_of names l /\
    class_counts out = tally (names_of names l)).
  { destruct pred0 as [|r p] eqn:E.
    - eexists. split; [apply process_frame_empty|]. auto.
    - destruct (process_frame_nonempty _ byte_tracker_update names st (r :: p))
        as (ids & _ & _ & Hp); [discriminate|].
      eexists. split; [exact Hp|]. auto. }
  destruct Hout as (out & Hp & Hparts & Hcounts).
  exists out, (names_of names l).
  split; [exact Hp|]. split; [exact HF|]. split; [exact Hparts|].
  rewrite Hcounts. split; [apply tally_first_seen|].
  split; [apply tally_count_occ|].
  intros ->. reflexivity.
Qed.

End FrameProcessorClaims.

Lemma working_set_is_class_filtered_witness :
  exists out,
    process_frame mirror_tracker sample_names 0%nat mixed_frame = Ok out /\
    tracker_calls out = [[(box_bad, 9 # 10)]] /\
    drawn out = [(box_bad, "breast"%string, 9 # 10, None)].
Proof.
  destruct (working_set_is_class_filtered nat mirror_tracker sample_names 0%nat mixed_frame)
    as (_ & _ & out & ids & Hp & Hcalls & Hm & Hd & Hlen); [discriminate|].
  vm_compute in Hm. injection Hm as <-.
  exists out. split; [exact Hp|]. split; [exact Hcalls|exact Hd].
Defined.

(** C3 fails as stated: a box with x1 > x2 and y1 > y2 whose class is in the
    allow-list is sent to the tracker and is associated and drawn. *)
Lemma malformed_box_reaches_tracker :
  ~ valid_box box_bad /\
  exists out,
    process_frame mirror_tracker sample_names 0%nat [mkRawDet box_bad (9 # 10) 0] = Ok out /\
    tracker_calls out = [[(box_bad, 9 # 10)]] /\
    map (fun d => fst (fst (fst d))) (drawn out) = [box_bad].
Proof.
  split.
  - intros [H _]. vm_compute in H. discriminate.
  - eexists. split; [vm_compute; reflexivity|]. split; reflexivity.
Qed.

Lemma no_detections_after_filtering_witness :
  exists out,
    process_frame mirror_tracker sample_names 0%nat [mkRawDet box_a (1 # 2) 5] = Ok out /\
    class_counts out = [] /\ chicken_parts out = [] /\ tracker_calls out = [[]].
Proof.
  apply (no_detections_after_filtering nat mirror_tracker sample_names 0%nat
           [mkRawDet box_a (1 # 2) 5]).
  reflexivity.
Defined.

(** C4 fails as stated: on a frame without raw detections nothing is left
    after filtering, and the tracker is not called at all. *)
Lemma empty_frame_skips_tracker :
  kept sample_names [] = [] /\
  exists out,
    process_frame mirror_tracker sample_names 0%nat [] = Ok out /\
    tracker_calls out = [] /\ tracker_state out = 0%nat.
Proof.
  split; [reflexivity|]. eexists. split; [reflexivity|]. split; reflexivity.
Qed.

Lemma class_counts_count_detections_witness :
  exists out,
    process_frame mirror_tracker sample_names 0%nat sample_frame = Ok out /\
    class_counts out = [("breast"%string, 2%nat); ("thigh"%string, 1%nat)].
Proof.
  destruct (class_counts_count_detections nat mirror_tracker sample_names 0%nat sample_frame)
    as (out & seq & Hp & HF & Hparts & _ & _ & Hex).
  exists out. split; [exact Hp|]. apply Hex.
  vm_compute in Hp. injection Hp as <-. rewrite <- Hparts. reflexivity.
Defined.

(** ** The [Detections] container *)

(** C6.  For every [Detections] whose arrays (boxes, confidences, class
    ids, and tracker ids when set) all have length [N], filtering in place
    by a mask of length [N] succeeds, returns [None], and leaves every
    array equal to its entries at the increasing positions where the mask
    is true: the same positions for all arrays, so the arrays stay aligned
    and of equal length, and surviving entries keep their relative
    order. *)
Theorem filter_inplace_keeps_alignment (self : Detections) (mask : list bool) (N : nat) :
  length (xyxy self) = N ->
  length (confidence self) = N ->
  length (class_id self) = N ->
  (forall tid, tracker_id self = Some tid -> length tid = N) ->
  length mask = N ->
  exists self',
    Detections_filter self mask true = (self', Ok None) /\
    let ps := true_positions mask in
    StronglySorted lt ps /\
    xyxy self' = at_positions (xyxy self) ps /\
    confidence self' = at_positions (confidence self) ps /\
    class_id self' = at_positions (class_id self) ps /\
    tracker_id self' = (fun tid => at_positions tid ps) <$> tracker_id self /\
    length (xyxy self') = length ps /\
    length (confidence self') = length ps /\
    length (class_id self') = length ps /\
    (forall tid', tracker_id self' = Some tid' -> length tid' = length ps).
Proof.
  intros H1 H2 H3 H4 Hm.
  assert (Hb : forall (A : Type) (arr : list A), length arr = N ->
             forall p, p ∈ true_positions mask -> (p < length arr)%nat).
  { intros A arr Ha p Hp. apply true_positions_from_bounds in Hp. lia. }
  unfold Detections_filter, filter_inplace.
  rewrite (mask_select_positions (xyxy self)) by congruence. cbn [confidence set_xyxy].
  rewrite (mask_select_positions (confidence self)) by congruence.
  cbn [class_id set_confidence set_xyxy].
  rewrite (mask_select_positions (class_id self)) by congruence.
  cbn [tracker_id set_class_id set_confidence set_xyxy].
  destruct (tracker_id self) as [tid|] eqn:Etid.
  - rewrite (mask_select_positions tid) by (rewrite (H4 tid eq_refl); congruence).
    eexists. split; [reflexivity|]. cbn.
    split; [apply true_positions_from_sorted|].
    do 4 (split; [reflexivity|]).
    do 3 (split; [apply at_positions_length, Hb; auto|]).
    intros tid' [= <-]. apply at_positions_length, Hb; auto.
  - eexists. split; [reflexivity|]. cbn. rewrite Etid.
    split; [apply true_positions_from_sorted|].
    do 4 (split; [reflexivity|]).
    do 3 (split; [apply at_positions_length, Hb; auto|]).
    intros tid' [=].
Qed.

Lemma filter_inplace_keeps_alignment_witness :
  exists self',
    Detections_filter
      (mkDetections [box_a; box_b] [9 # 10; 8 # 10] [0%Z; 1%Z] (Some [Some 7%Z; None]))
      [false; true] true = (self', Ok None) /\
    xyxy self' = [box_b] /\ confidence self' = [8 # 10] /\
    class_id self' = [1%Z] /\ tracker_id self' = Some [None].
Proof.
  destruct (filter_inplace_keeps_alignment
              (mkDetections [box_a; box_b] [9 # 10; 8 # 10] [0%Z; 1%Z] (Some [Some 7%Z; None]))
              [false; true] 2 eq_refl eq_refl eq_refl)
    as (self' & Hf & _ & Hx & Hc & Hk & Ht & _).
  - intros tid [= <-]. reflexivity.
  - reflexivity.
  - exists self'. split; [exact Hf|]. auto.
Defined.

(** C7.  Copy mode on a [Detections] whose tracker ids are assigned: the
    boxes, confidences and class ids of the copy are the mask-selected
    entries and the receiver is unchanged, but the copy is built by the
    constructor and its [tracker_id] is [None], where the in-place branch
    on the same input keeps the selected tracker id. *)
Theorem filter_copy_loses_tracker_id :
  let self := mkDetections [box_a; box_b] [9 # 10; 8 # 10] [0%Z; 1%Z] (Some [Some 7%Z; None]) in
  Detections_filter self [true; false] false
  = (self, Ok (Some (mkDetections [box_a] [9 # 10] [0%Z] None))) /\
  fst (Detections_filter self [true; false] true)
  = mkDetections [box_a] [9 # 10] [0%Z] (Some [Some 7%Z]).
Proof. split; reflexivity. Qed.

(** C10.  Iterating a [Detections] whose [tracker_id] is still [None]
    raises [AttributeError] instead of yielding tuples; once an array has
    been assigned, iteration yields a sequence. *)
Theorem iter_needs_tracker_id (self : Detections) :
  (tracker_id self = None -> Detections_iter self = Raise AttributeError) /\
  (forall tid, tracker_id self = Some tid -> exists items, Detections_iter self = Ok items).
Proof.
  unfold Detections_iter. split.
  - intros ->. reflexivity.
  - intros tid ->. eauto.
Qed.

Lemma iter_needs_tracker_id_witness :
  Detections_iter sample_detections = Raise AttributeError.
Proof.
  apply (proj1 (iter_needs_tracker_id sample_detections)). reflexivity.
Defined.

(** ** The track associator *)

(** C1.  For every non-empty detection set and non-empty track list, the
    associator returns one optional id per detection, aligned by index:
    the slot of detection [j] holds the id of the last track row, in row
    order, whose maximum-IoU column is [j] with an IoU strictly greater
    than zero, and it is [None] when no track row claims [j]. *)
Theorem match_assigns_last_best_track (detections : Detections) (tracks : list STrack) :
  xyxy detections <> [] -> tracks <> [] ->
  exists tracker_ids,
    match_detections_with_tracks detections tracks = Ok tracker_ids /\
    last_writer_wins detections tracks tracker_ids.
Proof.
  intros _ _.
  destruct (match_assigned detections tracks) as (ids & Hm & Hlen & Hinv).
  exists ids. split; [exact Hm|]. split; [exact Hlen|].
  intros j Hj. destruct (Hinv j Hj) as [Hsome Hnone]. split.
  - intros id. rewrite Hsome. split.
    + intros (i & t & Hi & Ht & Hid & Hc & Hlast). exists i, t.
      repeat split; auto.
      intros i' Hi' Hc'. apply (Hlast i'); [|exact Hc'].
      split; [exact Hi'|]. eapply claims_lt; exact Hc'.
    + intros (i & t & Ht & Hid & Hc & Hlast). exists i, t.
      split; [eapply lookup_lt_Some; exact Ht|].
      repeat split; auto.
      intros i' Hi'. apply Hlast. lia.
  - rewrite Hnone. split.
    + intros H i Hc. apply (H i); [eapply claims_lt|]; exact Hc.
    + intros H i _. apply H.
Qed.

Lemma match_assigns_last_best_track_witness :
  exists tracker_ids,
    match_detections_with_tracks sample_detections sample_tracks = Ok tracker_ids /\
    last_writer_wins sample_detections sample_tracks tracker_ids.
Proof.
  apply (match_assigns_last_best_track sample_detections sample_tracks); discriminate.
Defined.

(** C2.  For every detection set and track list the associator returns a
    list with one entry per detection and never raises; when there is no
    detection or no track, every entry is [None]. *)
Theorem match_without_detections_or_tracks (detections : Detections) (tracks : list STrack) :
  (exists tracker_ids,
     match_detections_with_tracks detections tracks = Ok tracker_ids /\
     length tracker_ids = length (xyxy detections)) /\
  (xyxy detections = [] \/ tracks = [] ->
   match_detections_with_tracks detections tracks
   = Ok (replicate (length (xyxy detections)) None)).
Proof.
  split; [apply match_total|].
  unfold match_detections_with_tracks. intros [H|H]; rewrite H; simpl.
  - reflexivity.
  - rewrite orb_true_r. reflexivity.
Qed.

Lemma match_without_detections_or_tracks_witness :
  match_detections_with_tracks sample_detections [] = Ok [None; None; None].
Proof.
  apply (proj2 (match_without_detections_or_tracks sample_detections [])).
  right. reflexivity.
Defined.

(** C9.  Whenever every coordinate of every detection box is zero,
    [np.any] is false on the box array, the guard takes the no-detection
    branch and the associator returns all [None]; this happens for some
    non-empty detection set with a non-empty track list. *)
Theorem zero_boxes_skip_association :
  (forall detections tracks,
     Forall all_zero (xyxy detections) ->
     Np.any (xyxy detections) = false /\
     match_detections_with_tracks detections tracks
     = Ok (replicate (length (xyxy detections)) None)) /\
  (exists detections tracks,
     xyxy detections <> [] /\ tracks <> [] /\
     Forall all_zero (xyxy detections) /\
     match_detections_with_tracks detections tracks
     = Ok (replicate (length (xyxy detections)) None)).
Proof.
  assert (H : forall detections tracks,
     Forall all_zero (xyxy detections) ->
     Np.any (xyxy detections) = false /\
     match_detections_with_tracks detections tracks
     = Ok (replicate (length (xyxy detections)) None)).
  { intros detections tracks Hz. apply all_zero_any in Hz.
    split; [exact Hz|]. unfold match_detections_with_tracks. rewrite Hz. reflexivity. }
  split; [exact H|].
  exists (mkDetections [box_zero] [9 # 10] [0%Z] None), [mkSTrack box_zero 1].
  split; [discriminate|]. split; [discriminate|].
  assert (Hz : Forall all_zero [box_zero]).
  { constructor; [|constructor]. repeat split; reflexivity. }
  split; [exact Hz|]. apply H. exact Hz.
Qed.

Lemma zero_boxes_skip_association_witness :
  match_detections_with_tracks (mkDetections [box_zero; box_zero] [9 # 10; 1 # 2] [0%Z; 1%Z] None)
    sample_tracks = Ok [None; None].
Proof.
  apply (proj1 zero_boxes_skip_association
           (mkDetections [box_zero; box_zero] [9 # 10; 1 # 2] [0%Z; 1%Z] None) sample_tracks).
  repeat constructor.
Defined.

(** ** The IoU value *)

Lemma valid_box_a : valid_box box_a.
Proof. split; reflexivity. Defined.

Lemma valid_box_b : valid_box box_b.
Proof. split; reflexivity. Defined.

(** C8.  The IoU value of section 4.1 is 1 on a valid box paired with
    itself, 0 on two valid boxes that do not overlap, and symmetric on
    valid boxes. *)
Theorem box_iou_properties :
  (forall a, valid_box a -> IoU.box_iou a a == 1) /\
  (forall a b, valid_box a -> valid_box b -> disjoint_boxes a b -> IoU.box_iou a b == 0) /\
  (forall a b, valid_box a -> valid_box b -> IoU.box_iou a b == IoU.box_iou b a).
Proof.
  split; [exact box_iou_self|]. split.
  - intros a b _ _ Hd. apply box_iou_zero_intersection, disjoint_intersection, Hd.
  - intros a b _ _. apply box_iou_comm.
Qed.

Lemma box_iou_properties_witness :
  IoU.box_iou box_a box_a == 1 /\
  IoU.box_iou box_a box_b == 0 /\
  IoU.box_iou box_a box_c == IoU.box_iou box_c box_a.
Proof.
  destruct box_iou_properties as (Hself & Hdisj & Hsym).
  split; [apply Hself, valid_box_a|]. split.
  - apply Hdisj; [apply valid_box_a | apply valid_box_b |]. left. discriminate.
  - apply Hsym; split; reflexivity.
Defined.

(** * Further properties of the modelled code *)

(** ** [Detections]: filtering and iterating *)

Lemma mask_select_all_true {A : Type} (arr : list A) :
  Np.mask_select arr (replicate (length arr) true) = Ok arr.
Proof.
  induction arr as [|x arr IH]; simpl; [reflexivity|]. rewrite IH. reflexivity.
Qed.

Lemma at_positions_cons {A : Type} (arr : list A) (p : nat) (ps : list nat) :
  at_positions arr (p :: ps)
  = match arr !! p with
    | Some x => x :: at_positions arr ps
    | None => at_positions arr ps
    end.
Proof. reflexivity. Qed.

Lemma at_positions_zip {A B : Type} (a : list A) (b : list B) (ps : list nat) :
  (forall p, p ∈ ps -> (p < length a)%nat /\ (p < length b)%nat) ->
  at_positions (zip a b) ps = zip (at_positions a ps) (at_positions b ps).
Proof.
  induction ps as [|p ps IH]; intros H; [reflexivity|].
  destruct (H p) as [Ha Hb]; [left|].
  destruct (lookup_lt_is_Some_2 a p Ha) as [x Hx].
  destruct (lookup_lt_is_Some_2 b p Hb) as [y Hy].
  rewrite !at_positions_cons, lookup_zip_with, Hx, Hy. simpl. rewrite IH; [reflexivity|].
  intros q Hq. apply H. right. exact Hq.
Qed.

Lemma true_positions_lt (mask : list bool) (p : nat) :
  p ∈ true_positions mask -> (p < length mask)%nat.
Proof. intros H. apply true_positions_from_bounds in H. lia. Qed.

Lemma iter_aligned (self : Detections) (tid : list (option Z)) :
  tracker_id self = Some tid ->
  length tid = length (xyxy self) ->
  Detections_iter self = Ok (zip4 (xyxy self) (confidence self) (class_id self) tid).
Proof.
  intros Ht Hlen. unfold Detections_iter. rewrite Ht.
  destruct tid as [|t tid]; [|reflexivity].
  simpl in *. rewrite <- Hlen. reflexivity.
Qed.

(** In-place filtering of aligned arrays, as one equation. *)
Lemma filter_inplace_aligned (self : Detections) (mask : list bool) :
  aligned self (length mask) ->
  (forall tid, tracker_id self = Some tid -> length tid = length mask) ->
  let ps := true_positions mask in
  Detections_filter self mask true
  = (mkDetections (at_positions (xyxy self) ps) (at_positions (confidence self) ps)
       (at_positions (class_id self) ps)
       ((fun tid => at_positions tid ps) <$> tracker_id self), Ok None).
Proof.
  intros (H1 & H2 & H3) H4. unfold Detections_filter, filter_inplace.
  rewrite (mask_select_positions (xyxy self)) by exact H1.
  cbn [set_xyxy set_confidence set_class_id xyxy confidence class_id tracker_id].
  rewrite (mask_select_positions (confidence self)) by exact H2.
  cbn [set_xyxy set_confidence set_class_id xyxy confidence class_id tracker_id].
  rewrite (mask_select_positions (class_id self)) by exact H3.
  cbn [set_xyxy set_confidence set_class_id xyxy confidence class_id tracker_id].
  destruct (tracker_id self) as [tid|] eqn:Etid.
  - rewrite (mask_select_positions tid) by (apply H4; reflexivity). reflexivity.
  - unfold set_class_id, set_confidence, set_xyxy. cbn. rewrite Etid. reflexivity.
Qed.

(** X1.  In-place filtering is not atomic.  A mask whose length differs
    from the number of boxes raises [IndexError] and leaves the object
    untouched; when the boxes match the mask but the confidence array does
    not, [IndexError] is raised after the boxes have already been
    replaced, so the object is left with arrays of different lengths. *)
Theorem filter_inplace_not_atomic (self : Detections) (mask : list bool) :
  (length (xyxy self) <> length mask ->
   Detections_filter self mask true = (self, Raise IndexError)) /\
  (length (xyxy self) = length mask ->
   length (confidence self) <> length mask ->
   Detections_filter self mask true
   = (set_xyxy self (at_positions (xyxy self) (true_positions mask)), Raise IndexError)).
Proof.
  unfold Detections_filter, filter_inplace. split.
  - intros H. rewrite mask_select_length_mismatch by exact H. reflexivity.
  - intros H1 H2. rewrite (mask_select_positions (xyxy self)) by exact H1.
    cbn [set_xyxy confidence].
    rewrite mask_select_length_mismatch by exact H2. reflexivity.
Qed.

Lemma filter_inplace_not_atomic_witness :
  Detections_filter misaligned_detections [false; true] true
  = (mkDetections [box_b] [9 # 10] [0%Z; 1%Z] None, Raise IndexError).
Proof.
  apply (proj2 (filter_inplace_not_atomic misaligned_detections [false; true]));
    [reflexivity|discriminate].
Defined.

(** X2.  Copy-mode filtering is all or nothing: when boxes, confidences
    and class ids all have the length of the mask it returns a new object
    holding their entries at the true positions of the mask (with
    [tracker_id] reset to [None]); otherwise it raises [IndexError].  The
    receiver is unchanged in both cases. *)
Theorem filter_copy_all_or_nothing (self : Detections) (mask : list bool) :
  let ps := true_positions mask in
  (aligned self (length mask) ->
   Detections_filter self mask false
   = (self, Ok (Some (mkDetections (at_positions (xyxy self) ps)
                        (at_positions (confidence self) ps)
                        (at_positions (class_id self) ps) None)))) /\
  (~ aligned self (length mask) ->
   Detections_filter self mask false = (self, Raise IndexError)).
Proof.
  intros ps. unfold Detections_filter, filter_copy. split.
  - intros (H1 & H2 & H3). rewrite !mask_select_positions by assumption. reflexivity.
  - intros Hn. f_equal.
    destruct (decide (length (xyxy self) = length mask)) as [H1|H1];
      [|rewrite mask_select_length_mismatch by exact H1; reflexivity].
    rewrite (mask_select_positions (xyxy self)) by exact H1. cbn [rbind].
    destruct (decide (length (confidence self) = length mask)) as [H2|H2];
      [|rewrite mask_select_length_mismatch by exact H2; reflexivity].
    rewrite (mask_select_positions (confidence self)) by exact H2. cbn [rbind].
    destruct (decide (length (class_id self) = length mask)) as [H3|H3];
      [|rewrite mask_select_length_mismatch by exact H3; reflexivity].
    exfalso. apply Hn. repeat split; assumption.
Qed.

Lemma filter_copy_all_or_nothing_witness :
  Detections_filter tracked_detections [false; true; true] false
  = (tracked_detections,
     Ok (Some (mkDetections [box_b; box_c] [8 # 10; 7 # 10] [1%Z; 0%Z] None))) /\
  Detections_filter misaligned_detections [false; true] false
  = (misaligned_detections, Raise IndexError).
Proof.
  split.
  - apply (proj1 (filter_copy_all_or_nothing tracked_detections [false; true; true])).
    repeat split.
  - apply (proj2 (filter_copy_all_or_nothing misaligned_detections [false; true])).
    intros (_ & H & _). discriminate.
Defined.

(** X3.  Filtering aligned detections in place by an all-true mask
    changes nothing, tracker ids included. *)
Theorem filter_all_true_is_identity (self : Detections) (N : nat) :
  aligned self N ->
  (forall tid, tracker_id self = Some tid -> length tid = N) ->
  Detections_filter self (replicate N true) true = (self, Ok None).
Proof.
  intros (H1 & H2 & H3) H4. unfold Detections_filter, filter_inplace.
  destruct self as [x c k t]. cbn [xyxy confidence class_id tracker_id] in *.
  rewrite <- H1 at 1. rewrite mask_select_all_true.
  cbn [set_xyxy set_confidence set_class_id xyxy confidence class_id tracker_id].
  rewrite <- H2 at 1. rewrite mask_select_all_true.
  cbn [set_xyxy set_confidence set_class_id xyxy confidence class_id tracker_id].
  rewrite <- H3 at 1. rewrite mask_select_all_true.
  cbn [set_xyxy set_confidence set_class_id xyxy confidence class_id tracker_id].
  destruct t as [tid|]; [|reflexivity].
  rewrite <- (H4 tid eq_refl). rewrite mask_select_all_true. reflexivity.
Qed.

Lemma filter_all_true_is_identity_witness :
  Detections_filter tracked_detections [true; true; true] true
  = (tracked_detections, Ok None).
Proof.
  apply (filter_all_true_is_identity tracked_detections 3).
  - repeat split.
  - intros tid [= <-]. reflexivity.
Defined.

(** X4.  Filtering and iterating commute: for aligned detections with
    tracker ids assigned, iterating after an in-place filter yields exactly
    the tuples of the unfiltered iteration at the true positions of the
    mask, in order. *)
Theorem filter_then_iter (self : Detections) (mask : list bool) (tid : list (option Z)) :
  aligned self (length mask) ->
  tracker_id self = Some tid ->
  length tid = length mask ->
  exists items,
    Detections_iter self = Ok items /\
    length items = length mask /\
    Detections_iter (fst (Detections_filter self mask true))
    = Ok (at_positions items (true_positions mask)).
Proof.
  intros Hal Ht Hlen. pose proof Hal as (H1 & H2 & H3).
  exists (zip4 (xyxy self) (confidence self) (class_id self) tid).
  split; [apply iter_aligned; [exact Ht|congruence]|].
  split; [unfold zip4; rewrite !length_zip_with; lia|].
  rewrite filter_inplace_aligned; [|exact Hal|intros tid' E; congruence].
  cbn [fst]. rewrite Ht. cbn [fmap option_fmap option_map].
  assert (Hb : forall (A : Type) (arr : list A), length arr = length mask ->
             forall p, p ∈ true_positions mask -> (p < length arr)%nat).
  { intros A arr Ha p Hp. apply true_positions_lt in Hp. lia. }
  rewrite (iter_aligned _ (at_positions tid (true_positions mask))); [|reflexivity|].
  - cbn [xyxy confidence class_id]. unfold zip4.
    rewrite !at_positions_zip; [reflexivity|..];
      intros p Hp; rewrite ?length_zip_with; apply true_positions_lt in Hp; lia.
  - cbn [xyxy]. rewrite !at_positions_length; auto.
Qed.

Lemma filter_then_iter_witness :
  exists items,
    Detections_iter tracked_detections = Ok items /\
    length items = 3%nat /\
    Detections_iter (fst (Detections_filter tracked_detections [false; true; true] true))
    = Ok (at_positions items [1; 2]%nat).
Proof.
  apply (filter_then_iter tracked_detections [false; true; true]
           [Some 9%Z; Some 7%Z; None]).
  - repeat split.
  - reflexivity.
  - reflexivity.
Defined.

(** X5.  Length of an iteration.  With boxes, confidences and class ids
    of length [N] and a tracker-id array of length [M], iteration yields
    min(N, M) tuples when M > 0 (a shorter tracker-id array silently
    truncates the iteration), and [N] tuples, all with tracker id [None],
    when the tracker-id array is empty. *)
Theorem iter_length_and_fallback (self : Detections) (N : nat) (tid : list (option Z)) :
  aligned self N ->
  tracker_id self = Some tid ->
  exists items,
    Detections_iter self = Ok items /\
    length items = (if (length tid =? 0)%nat then N else N `min` length tid) /\
    (tid = [] -> map snd items = replicate N None).
Proof.
  intros (H1 & H2 & H3) Ht. unfold Detections_iter. rewrite Ht.
  eexists. split; [reflexivity|]. unfold zip4. split.
  - rewrite !length_zip_with, H1, H2, H3.
    destruct tid as [|t tid]; simpl.
    + rewrite length_replicate. lia.
    + lia.
  - intros ->. simpl. rewrite H1.
    rewrite snd_zip; [reflexivity|].
    rewrite !length_zip_with, length_replicate. lia.
Qed.

Lemma iter_length_and_fallback_witness :
  exists items,
    Detections_iter (mkDetections [box_a; box_b] [9 # 10; 8 # 10] [0%Z; 1%Z] (Some []))
    = Ok items /\
    length items = 2%nat /\
    map snd items = [None; None].
Proof.
  destruct (iter_length_and_fallback
              (mkDetections [box_a; box_b] [9 # 10; 8 # 10] [0%Z; 1%Z] (Some []))
              2 [] ) as (items & Hi & Hlen & Hnone).
  - repeat split.
  - reflexivity.
  - exists items. split; [exact Hi|]. split; [exact Hlen|]. apply Hnone. reflexivity.
Defined.

(** X6.  [detections2boxes] pairs each box with its confidence: when the
    two arrays have the same length the rows give back the boxes and the
    confidences, column by column; otherwise [np.hstack] raises
    [ValueError]. *)
Theorem detections2boxes_round_trip (detections : Detections) :
  (length (xyxy detections) = length (confidence detections) ->
   exists rows,
     detections2boxes detections = Ok rows /\
     map fst rows = xyxy detections /\
     map snd rows = confidence detections) /\
  (length (xyxy detections) <> length (confidence detections) ->
   detections2boxes detections = Raise ValueError).
Proof.
  unfold detections2boxes. split; intros H.
  - apply Nat.eqb_eq in H as H'. rewrite H'. eexists. split; [reflexivity|].
    split; [apply fst_zip | apply snd_zip]; lia.
  - apply Nat.eqb_neq in H. rewrite H. reflexivity.
Qed.

Lemma detections2boxes_round_trip_witness :
  exists rows,
    detections2boxes sample_detections = Ok rows /\
    map fst rows = [box_a; box_b; box_c] /\
    map snd rows = [9 # 10; 8 # 10; 7 # 10].
Proof.
  apply (proj1 (detections2boxes_round_trip sample_detections)). reflexivity.
Defined.

(** ** The track associator: where ids come from *)


Lemma iou_row_lookup (detections : Detections) (t : STrack) (k : nat) :
  iou_row detections t !! k = IoU.box_iou (tlbr t) <$> xyxy detections !! k.
Proof. unfold iou_row. apply list_lookup_fmap. Qed.


Lemma claims_functional (detections : Detections) (tracks : list STrack) i j j' :
  claims detections tracks i j -> claims detections tracks i j' -> j = j'.
Proof.
  intros (t & v & Ht & Hb & _) (t' & v' & Ht' & Hb' & _).
  assert (t' = t) as -> by congruence.
  eapply best_column_unique; eassumption.
Qed.

(** What the associator leaves in slot [j]. *)
Lemma match_slot (detections : Detections) (tracks : list STrack) ids j :
  match_detections_with_tracks detections tracks = Ok ids ->
  (j < length (xyxy detections))%nat ->
  (forall id, ids !! j = Some (Some id) <->
     exists i t, (i < length tracks)%nat /\ tracks !! i = Some t /\ track_id t = id /\
       claims detections tracks i j /\
       forall i', (i < i' < length tracks)%nat -> ~ claims detections tracks i' j) /\
  (ids !! j = Some None <->
     forall i, (i < length tracks)%nat -> ~ claims detections tracks i j) /\
  exists x, ids !! j = Some x.
Proof.
  intros Hm Hj.
  destruct (match_assigned detections tracks) as (ids' & Hm' & Hlen & Hinv).
  assert (ids' = ids) as -> by congruence.
  destruct (Hinv j Hj) as [Hsome Hnone].
  split; [exact Hsome|]. split; [exact Hnone|].
  apply lookup_lt_is_Some_2. lia.
Qed.





(** X8.  When the track ids of the input list are pairwise distinct, no id
    is given to two detections. *)
Theorem distinct_track_ids_assigned_once
    (detections : Detections) (tracks : list STrack) ids j j' id :
  NoDup (map track_id tracks) ->
  match_detections_with_tracks detections tracks = Ok ids ->
  ids !! j = Some (Some id) -> ids !! j' = Some (Some id) -> j = j'.
Proof.
  intros Hnd Hm Hj Hj'.
  assert (Hlen : length ids = length (xyxy detections)).
  { destruct (match_total detections tracks) as (ids' & Hm' & Hl). congruence. }
  destruct (match_slot _ _ _ j Hm) as (Hs & _); [apply lookup_lt_Some in Hj; lia|].
  destruct (match_slot _ _ _ j' Hm) as (Hs' & _); [apply lookup_lt_Some in Hj'; lia|].
  apply Hs in Hj as (i & t & _ & Ht & Hid & Hc & _).
  apply Hs' in Hj' as (i' & t' & _ & Ht' & Hid' & Hc' & _).
  assert (i = i').
  { apply (NoDup_lookup _ i i' id Hnd);
      change (map track_id tracks) with (track_id <$> tracks);
      rewrite list_lookup_fmap; [rewrite Ht|rewrite Ht']; simpl; congruence. }
  subst i'. eapply claims_functional; eassumption.
Qed.

Lemma distinct_track_ids_assigned_once_witness :
  NoDup (map track_id sample_tracks) /\
  forall j j',
    ([Some 9%Z; Some 7%Z; None] : list (option Z)) !! j = Some (Some 9%Z) ->
    ([Some 9%Z; Some 7%Z; None] : list (option Z)) !! j' = Some (Some 9%Z) -> j = j'.
Proof.
  assert (Hnd : NoDup (map track_id sample_tracks))
    by (apply (bool_decide_unpack _); vm_compute; exact I).
  split; [exact Hnd|]. intros j j'.
  apply (distinct_track_ids_assigned_once sample_detections sample_tracks
           [Some 9%Z; Some 7%Z; None] j j' 9%Z Hnd sample_match).
Defined.



(** X10.  A detection that is the only one overlapped by some track is
    never left unassigned: its slot holds the id of that track or of a
    later track row. *)
Theorem sole_overlap_is_assigned
    (detections : Detections) (tracks : list STrack) ids i t j b :
  match_detections_with_tracks detections tracks = Ok ids ->
  tracks !! i = Some t ->
  xyxy detections !! j = Some b ->
  0 < IoU.box_iou (tlbr t) b ->
  (forall k b', k <> j -> xyxy detections !! k = Some b' ->
     IoU.box_iou (tlbr t) b' == 0) ->
  exists i' t', (i <= i')%nat /\ tracks !! i' = Some t' /\
    ids !! j = Some (Some (track_id t')).
Proof.
  intros Hm Ht Hb Hpos Hothers.
  assert (Hj : (j < length (xyxy detections))%nat) by (eapply lookup_lt_Some; exact Hb).
  assert (Hc : claims detections tracks i j).
  { exists t, (IoU.box_iou (tlbr t) b). split; [exact Ht|].
    assert (Hv : iou_row detections t !! j = Some (IoU.box_iou (tlbr t) b))
      by (rewrite iou_row_lookup, Hb; reflexivity).
    split; [|split; [exact Hv|exact Hpos]].
    exists (IoU.box_iou (tlbr t) b). split; [exact Hv|]. split.
    - intros k w Hw. rewrite iou_row_lookup in Hw.
      destruct (xyxy detections !! k) as [b'|] eqn:Ek; [|discriminate].
      injection Hw as <-. destruct (decide (k = j)) as [->|Hne].
      + assert (b' = b) as -> by congruence. lra.
      + rewrite (Hothers k b' Hne Ek). lra.
    - intros k w Hlt Hw. rewrite iou_row_lookup in Hw.
      destruct (xyxy detections !! k) as [b'|] eqn:Ek; [|discriminate].
      injection Hw as <-. rewrite (Hothers k b'); [exact Hpos|lia|exact Ek]. }
  destruct (match_slot _ _ _ j Hm Hj) as (Hsome & Hnone & [x Hx]).
  destruct x as [id|].
  - apply Hsome in Hx as Hx'. destruct Hx' as (i' & t' & Hi' & Ht' & Hid & _ & Hlast).
    exists i', t'. split; [|split; [exact Ht'|congruence]].
    destruct (decide (i <= i')%nat) as [Hle|Hgt]; [exact Hle|].
    exfalso. apply (Hlast i); [|exact Hc].
    split; [lia|eapply lookup_lt_Some; exact Ht].
  - exfalso. apply (proj1 Hnone Hx i); [eapply lookup_lt_Some; exact Ht|exact Hc].
Qed.

Lemma sole_overlap_is_assigned_witness :
  match_detections_with_tracks sample_detections [mkSTrack box_b 7]
  = Ok [None; Some 7%Z; None] /\
  exists i' t', (0 <= i')%nat /\ [mkSTrack box_b 7] !! i' = Some t' /\
    ([None; Some 7%Z; None] : list (option Z)) !! 1%nat = Some (Some (track_id t')).
Proof.
  assert (Hm : match_detections_with_tracks sample_detections [mkSTrack box_b 7]
               = Ok [None; Some 7%Z; None]) by (vm_compute; reflexivity).
  split; [exact Hm|].
  apply (sole_overlap_is_assigned sample_detections [mkSTrack box_b 7]
           [None; Some 7%Z; None] 0 (mkSTrack box_b 7) 1 box_b Hm).
  - reflexivity.
  - reflexivity.
  - reflexivity.
  - intros [|[|[|k]]] b' Hk Hb'; try congruence; simpl in Hb'; try discriminate;
      injection Hb' as <-; reflexivity.
Defined.

(** ** The class names of the detector *)

Lemma enumerate_fold_lookup (l : list string) (n : nat) (m : gmap Z string) (c : Z) :
  fold_left (fun m p => <[Z.of_nat (fst p) := snd p]> m) (zip (seq n (length l)) l) m !! c
  = if bool_decide (Z.of_nat n <= c < Z.of_nat (n + length l))%Z
    then l !! (Z.to_nat c - n)%nat else m !! c.
Proof.
  revert n m. induction l as [|x l IH]; intros n m.
  - simpl. rewrite bool_decide_eq_false_2 by lia. reflexivity.
  - cbn [length seq zip_with fold_left fst snd]. rewrite IH.
    case_bool_decide as H1; case_bool_decide as H2; try lia.
    + replace (Z.to_nat c - n)%nat with (S (Z.to_nat c - S n)) by lia. reflexivity.
    + assert (c = Z.of_nat n) as -> by lia.
      rewrite lookup_insert_eq. replace (Z.to_nat (Z.of_nat n) - n)%nat with 0%nat by lia.
      reflexivity.
    + rewrite lookup_insert_ne by lia. reflexivity.
Qed.

Lemma dict_of_enumerate_lookup (l : list string) (c : Z) :
  dict_of_enumerate l !! c
  = if bool_decide (0 <= c)%Z then l !! Z.to_nat c else None.
Proof.
  unfold dict_of_enumerate, Py.enumerate. rewrite enumerate_fold_lookup.
  rewrite lookup_empty, Nat.sub_0_r.
  case_bool_decide as H1; case_bool_decide as H2; try lia; try reflexivity.
  symmetry. apply lookup_ge_None_2. lia.
Qed.

(** X11.  Normalising the class names: a dictionary is kept as it is; a
    list becomes the dictionary that maps each position to the name at that
    position, so its keys are exactly 0 .. len-1 and the allow-list of
    [process_frame] keeps exactly the class ids in that range. *)
Theorem names_list_becomes_positional_dict (l : list string) (d : gmap Z string) :
  normalize_names (NamesDict d) = d /\
  (forall i : nat, normalize_names (NamesList l) !! Z.of_nat i = l !! i) /\
  (forall c : Z, is_Some (normalize_names (NamesList l) !! c)
                 <-> (0 <= c < Z.of_nat (length l))%Z) /\
  (forall r, allowed (normalize_names (NamesList l)) r = true
             <-> (0 <= det_cls r < Z.of_nat (length l))%Z).
Proof.
  assert (Hdom : forall c : Z, is_Some (normalize_names (NamesList l) !! c)
                 <-> (0 <= c < Z.of_nat (length l))%Z).
  { intros c. simpl. rewrite dict_of_enumerate_lookup.
    case_bool_decide as H.
    - rewrite lookup_lt_is_Some. lia.
    - split; [intros [x Hx]; discriminate|lia]. }
  split; [reflexivity|]. split; [|split; [exact Hdom|]].
  - intros i. simpl. rewrite dict_of_enumerate_lookup.
    rewrite bool_decide_eq_true_2 by lia. rewrite Nat2Z.id. reflexivity.
  - intros r. rewrite allowed_lookup. apply Hdom.
Qed.

Lemma names_list_becomes_positional_dict_witness :
  normalize_names (NamesList ["breast"; "thigh"]%string) !! 1%Z = Some "thigh"%string /\
  allowed (normalize_names (NamesList ["breast"; "thigh"]%string))
    (mkRawDet box_a (1 # 2) 1) = true.
Proof.
  destruct (names_list_becomes_positional_dict ["breast"; "thigh"]%string ∅)
    as (_ & Hl & _ & Ha).
  split; [exact (Hl 1%nat)|]. apply Ha. simpl. lia.
Defined.

(** ** The frame processor: totals, keys and errors *)

Lemma names_of_Forall2 (names : gmap Z string) (l : list RawDet) :
  (forall r, r ∈ l -> is_Some (names !! det_cls r)) ->
  Forall2 (fun r n => names !! det_cls r = Some n) l (names_of names l).
Proof.
  induction l as [|r l IH]; intros Hall; [constructor|].
  destruct (Hall r) as [n Hn]; [left|].
  unfold names_of. simpl. rewrite Hn. simpl. constructor; [exact Hn|].
  apply IH. intros r' Hr'. apply Hall. right. exact Hr'.
Qed.

Lemma kept_all (names : gmap Z string) (pred0 : list RawDet) :
  (forall r, r ∈ pred0 -> is_Some (names !! det_cls r)) -> kept names pred0 = pred0.
Proof.
  unfold kept. induction pred0 as [|r p IH]; intros H; simpl; [reflexivity|].
  rewrite (proj2 (allowed_lookup names r)) by (apply H; left).
  rewrite IH; [reflexivity|]. intros r' Hr'. apply H. right. exact Hr'.
Qed.

Lemma kept_length (names : gmap Z string) (pred0 : list RawDet) :
  (length (kept names pred0) <= length pred0)%nat.
Proof. unfold kept. apply filter_length_le. Qed.

Lemma total_count_set (d : Py.dict nat) (k : string) :
  total_count (Py.dict_set d k (Py.dict_get d k 0 + 1)%nat) = S (total_count d).
Proof.
  unfold total_count. induction d as [|[k' v'] d IH]; simpl; [reflexivity|].
  destruct (String.eqb k' k); simpl; [lia|]. rewrite IH. lia.
Qed.

Lemma total_count_tally (l : list string) (d : Py.dict nat) :
  total_count (fold_left tally_step l d) = (total_count d + length l)%nat.
Proof.
  revert d. induction l as [|x l IH]; intros d; simpl; [lia|].
  rewrite IH. unfold tally_step. rewrite total_count_set. lia.
Qed.

Lemma first_seen_elem (l : list string) (x : string) : x ∈ first_seen l <-> x ∈ l.
Proof.
  induction l as [|y l IH]; simpl; [reflexivity|]. split; intros H.
  - apply elem_of_cons in H as [->|H]; [left|].
    apply list_elem_of_In, filter_In in H as [H _].
    right. apply IH, list_elem_of_In, H.
  - apply elem_of_cons in H as [->|H]; [left|].
    destruct (String.string_dec x y) as [->|Hne]; [left|right].
    apply list_elem_of_In, filter_In. split; [apply list_elem_of_In, IH, H|].
    apply negb_true_iff, String.eqb_neq. congruence.
Qed.

Lemma first_seen_NoDup (l : list string) : NoDup (first_seen l).
Proof.
  induction l as [|y l IH]; simpl; [constructor|].
  constructor.
  - rewrite list_elem_of_In, filter_In, negb_true_iff, String.eqb_neq. tauto.
  - apply NoDup_ListNoDup, List.NoDup_filter, NoDup_ListNoDup, IH.
Qed.

(** X16.  The annotation loop raises [KeyError] at the first detection
    whose class id has no name, whatever follows it: the allow-list filter
    is what keeps [process_frame] from failing there. *)
Theorem unnamed_class_raises_key_error (names : gmap Z string)
    (pre post : list (Box * Q * Z * option Z)) (it : Box * Q * Z * option Z)
    (s : Py.dict nat * list string * list (Box * string * Q * option Z)) :
  Forall (fun x => is_Some (names !! snd (fst x))) pre ->
  names !! snd (fst it) = None ->
  Py.for_each (count_detection names) (pre ++ it :: post) s = Raise KeyError.
Proof.
  intros Hpre Hit. revert s.
  induction Hpre as [|x pre [n Hn] _ IH]; intros [[c p] d].
  - destruct it as [[[b q] k] t]. simpl in *. unfold class_name_of. rewrite Hit.
    reflexivity.
  - destruct x as [[[b q] k] t]. simpl in Hn.
    cbn [app Py.for_each count_detection]. unfold class_name_of. rewrite Hn.
    cbn [rbind]. apply IH.
Qed.

Lemma unnamed_class_raises_key_error_witness :
  Py.for_each (count_detection sample_names)
    ([(box_a, 9 # 10, 0%Z, None)] ++ (box_b, 1 # 2, 5%Z, Some 3%Z) :: [(box_c, 1 # 2, 1%Z, None)])
    ([], [], [])
  = Raise KeyError.
Proof.
  apply unnamed_class_raises_key_error.
  - constructor; [|constructor]. simpl. eexists. vm_compute. reflexivity.
  - vm_compute. reflexivity.
Defined.

Section FrameProcessorExtras.

Variable TrackerState : Type.
Variable byte_tracker_update :
  TrackerState -> list (Box * Q) -> TrackerState * list STrack.

Lemma process_frame_run names st pred0 :
  let l := kept names pred0 in
  exists out,
    process_frame byte_tracker_update names st pred0 = Ok out /\
    class_counts out = tally (names_of names l) /\
    chicken_parts out = names_of names l /\
    length (drawn out) = length l /\
    tracker_state out
    = match pred0 with
      | [] => st
      | _ :: _ => fst (byte_tracker_update st (rows_of l))
      end.
Proof.
  destruct pred0 as [|r p]; intros l.
  - eexists. split; [apply process_frame_empty|]. cbn. auto.
  - destruct (process_frame_nonempty _ byte_tracker_update names st (r :: p))
      as (ids & _ & Hlen & Hp); [discriminate|].
    fold l in Hp, Hlen. clearbody l.
    eexists. split; [exact Hp|]. cbn.
    repeat split. rewrite length_zip_with. lia.
Qed.


(** X13.  The counts add up: the sum of the per-class counts equals the
    length of the occurrence sequence, which equals the number of labelled
    boxes drawn and the number of detections kept by the allow-list, at
    most the number of raw detections. *)
Theorem counts_add_up names st pred0 out :
  process_frame byte_tracker_update names st pred0 = Ok out ->
  total_count (class_counts out) = length (chicken_parts out) /\
  length (chicken_parts out) = length (drawn out) /\
  length (drawn out) = length (kept names pred0) /\
  (length (kept names pred0) <= length pred0)%nat.
Proof.
  intros Hout.
  destruct (process_frame_run names st pred0) as (out' & Hp & Hc & Hparts & Hd & _).
  assert (out' = out) as -> by congruence.
  assert (Hn : length (names_of names (kept names pred0)) = length (kept names pred0)).
  { symmetry. eapply Forall2_length, names_of_Forall2, kept_allowed. }
  rewrite Hc, Hparts, Hd. unfold tally. rewrite total_count_tally.
  split; [reflexivity|]. split; [exact Hn|]. split; [reflexivity|apply kept_length].
Qed.

(** X14.  The keys of the returned counts are pairwise distinct, each has
    a count of at least one, and each is the name of the class id of some
    raw detection of the frame. *)
Theorem counted_names_are_distinct_dictionary_names names st pred0 out :
  process_frame byte_tracker_update names st pred0 = Ok out ->
  NoDup (map fst (class_counts out)) /\
  forall k, k ∈ map fst (class_counts out) ->
    (1 <= Py.dict_get (class_counts out) k 0)%nat /\
    exists r, r ∈ pred0 /\ names !! det_cls r = Some k.
Proof.
  intros Hout.
  destruct (process_frame_run names st pred0) as (out' & Hp & Hc & _).
  assert (out' = out) as -> by congruence.
  rewrite Hc, tally_first_seen. split; [apply first_seen_NoDup|].
  intros k Hk. apply (proj1 (first_seen_elem _ _)) in Hk. split.
  - rewrite tally_count_occ. apply list_elem_of_In in Hk.
    apply (count_occ_In String.string_dec) in Hk. lia.
  - unfold names_of in Hk. apply list_elem_of_omap in Hk as (r & Hr & Hn).
    exists r. split; [|exact Hn].
    unfold kept in Hr. apply list_elem_of_In, filter_In in Hr as [Hr _].
    apply list_elem_of_In. exact Hr.
Qed.

(** X15.  With class names given as a list and every raw class id within
    the range of that list, the allow-list drops nothing: the occurrence
    sequence has the list's name for every raw detection, in order, and
    all raw rows are sent to the tracker. *)
Theorem list_names_keep_every_in_range_detection (l : list string) st pred0 :
  Forall (fun r => (0 <= det_cls r < Z.of_nat (length l))%Z) pred0 ->
  exists out,
    process_frame byte_tracker_update (normalize_names (NamesList l)) st pred0 = Ok out /\
    Forall2 (fun r n => l !! Z.to_nat (det_cls r) = Some n) pred0 (chicken_parts out) /\
    tracker_calls out = match pred0 with [] => [] | _ :: _ => [rows_of pred0] end.
Proof.
  intros Hrange. set (names := normalize_names (NamesList l)).
  assert (Hall : forall r, r ∈ pred0 -> is_Some (names !! det_cls r)).
  { intros r Hr. rewrite Forall_forall in Hrange. unfold names. simpl.
    rewrite dict_of_enumerate_lookup.
    rewrite bool_decide_eq_true_2 by (apply Hrange in Hr; lia).
    apply lookup_lt_is_Some. apply Hrange in Hr. lia. }
  assert (Hk : kept names pred0 = pred0) by (apply kept_all, Hall).
  assert (HF : Forall2 (fun r n => l !! Z.to_nat (det_cls r) = Some n) pred0
                 (names_of names pred0)).
  { eapply Forall2_impl; [apply names_of_Forall2, Hall|].
    intros r n Hn. unfold names in Hn. simpl in Hn.
    rewrite dict_of_enumerate_lookup in Hn.
    case_bool_decide; [exact Hn|discriminate]. }
  destruct pred0 as [|r p] eqn:E.
  - eexists. split; [apply process_frame_empty|]. cbn. split; [constructor|reflexivity].
  - destruct (process_frame_nonempty _ byte_tracker_update names st (r :: p))
      as (ids & _ & _ & Hp); [discriminate|].
    rewrite Hk in Hp. eexists. split; [exact Hp|]. cbn. split; [exact HF|reflexivity].
Qed.


End FrameProcessorExtras.

Lemma counts_add_up_witness :
  exists out,
    process_frame mirror_tracker sample_names 0%nat mixed_frame = Ok out /\
    total_count (class_counts out) = length (chicken_parts out) /\
    length (chicken_parts out) = length (drawn out) /\
    length (drawn out) = length (kept sample_names mixed_frame) /\
    (length (kept sample_names mixed_frame) <= length mixed_frame)%nat.
Proof.
  eexists. split; [vm_compute; reflexivity|].
  apply (counts_add_up nat mirror_tracker sample_names 0%nat mixed_frame).
  vm_compute. reflexivity.
Defined.

Lemma counted_names_are_distinct_dictionary_names_witness :
  exists out,
    process_frame mirror_tracker sample_names 0%nat sample_frame = Ok out /\
    NoDup (map fst (class_counts out)).
Proof.
  eexists. split; [vm_compute; reflexivity|].
  apply (counted_names_are_distinct_dictionary_names
           nat mirror_tracker sample_names 0%nat sample_frame).
  vm_compute. reflexivity.
Defined.

Lemma list_names_keep_every_in_range_detection_witness :
  exists out,
    process_frame mirror_tracker (normalize_names (NamesList ["breast"; "thigh"]%string))
      0%nat sample_frame = Ok out /\
    Forall2 (fun r n => ["breast"; "thigh"]%string !! Z.to_nat (det_cls r) = Some n)
      sample_frame (chicken_parts out) /\
    tracker_calls out = [rows_of sample_frame].
Proof.
  apply (list_names_keep_every_in_range_detection nat mirror_tracker
           ["breast"; "thigh"]%string 0%nat sample_frame).
  repeat constructor; simpl; lia.
Defined.

